(** * ElectroGPT: the datasheet question-answering pipeline of [app.py]

    A shallow embedding of [app.py]: text extraction from the uploaded
    datasheets, chunking, construction of the vector store and of the
    conversation chain, the question handler and one run of [main] over the
    Streamlit session state.

    [app.py] is glue code over PyPDF2, LangChain, FAISS and Streamlit.  What a
    library computes numerically or over the network (PDF parsing, embeddings,
    nearest-neighbour search, the language model) is a [Variable] of the
    section that uses it.  The control flow of the LangChain classes that
    [app.py] instantiates ([CharacterTextSplitter], [ConversationBufferMemory],
    [ConversationalRetrievalChain], [FAISS.from_texts]) is embedded from those
    classes, and every such definition names the library method it follows. *)

From Stdlib Require Import ZArith Ascii String List Bool Lia.
From stdpp Require Import gmap strings list.

Local Open Scope string_scope.
Local Open Scope Z_scope.
Local Open Scope list_scope.

(** ** Python values shared by the whole development *)

(** The exceptions that can leave a function of [app.py]. *)
Inductive exn : Type :=
  | TypeError                      (* calling [None] *)
  | IndexError                     (* indexing an empty list *)
  | AttributeError                 (* a missing attribute or session key *)
  | PdfReadError                   (* PyPDF2 on a file it cannot read *)
  | BackendError (what : string).  (* raised by a remote backend *)

Inductive result (A : Type) : Type :=
  | Ok (a : A)
  | Raise (e : exn).
Arguments Ok {A} a.
Arguments Raise {A} e.

Definition is_ok {A} (r : result A) : bool :=
  match r with Ok _ => true | Raise _ => false end.

(** [len(s)] *)
Definition len (s : string) : Z := Z.of_nat (String.length s).

(** [sep.join(l)] *)
Definition join (sep : string) (l : list string) : string :=
  String.concat sep l.

Definition newline : string := String "010"%char EmptyString.

(** [c * n] for a one-character string [c] *)
Fixpoint str_repeat (c : ascii) (n : nat) : string :=
  match n with
  | O => EmptyString
  | S k => String c (str_repeat c k)
  end.

(** ** Text extraction: [get_datasheets_text] *)

Section TextExtractor.
Context {Datasheet Page : Type}.
(** [PdfReader(datasheet).pages] *)
Variable PdfReader : Datasheet -> result (list Page).
(** [page.extract_text()] *)
Variable extract_text : Page -> result string.

(** The inner loop,
    [for page in pdf_reader.pages: text += page.extract_text()]. *)
Fixpoint pages_loop (text : string) (pages : list Page) : result string :=
  match pages with
  | [] => Ok text
  | page :: rest =>
      match extract_text page with
      | Ok t => pages_loop (text +:+ t) rest
      | Raise e => Raise e
      end
  end.

(** The outer loop, [for datasheet in datasheets: ...]. *)
Fixpoint datasheets_loop (text : string) (datasheets : list Datasheet)
  : result string :=
  match datasheets with
  | [] => Ok text
  | datasheet :: rest =>
      match PdfReader datasheet with
      | Ok pages =>
          match pages_loop text pages with
          | Ok text' => datasheets_loop text' rest
          | Raise e => Raise e
          end
      | Raise e => Raise e
      end
  end.

Definition get_datasheets_text (datasheets : list Datasheet) : result string :=
  datasheets_loop "" datasheets.
End TextExtractor.

(** ** Chunking: [get_text_chunks]

    [get_text_chunks] builds
    [CharacterTextSplitter(separator='\n', chunk_size=1000, chunk_overlap=200,
    length_function=len)] and returns [split_text(raw_text)].  The definitions
    below follow [langchain.text_splitter]: [str.split], [str.strip],
    [TextSplitter._join_docs], [TextSplitter._merge_splits] and
    [CharacterTextSplitter.split_text]. *)

Module Splitter.

(** [str.isspace] on the code points below 256. *)
Definition isspace (c : ascii) : bool :=
  let n := nat_of_ascii c in
  ((9 <=? n)%nat && (n <=? 13)%nat) || ((28 <=? n)%nat && (n <=? 32)%nat)
  || (n =? 133)%nat || (n =? 160)%nat.

Fixpoint lstrip (s : string) : string :=
  match s with
  | EmptyString => EmptyString
  | String c s' => if isspace c then lstrip s' else s
  end.

Fixpoint rstrip (s : string) : string :=
  match s with
  | EmptyString => EmptyString
  | String c s' =>
      match rstrip s' with
      | EmptyString => if isspace c then EmptyString else String c EmptyString
      | r => String c r
      end
  end.

(** [s.strip()] *)
Definition strip (s : string) : string := rstrip (lstrip s).

(** [s.split(sep)] for a non-empty [sep]: [skip] counts the characters of a
    separator occurrence that are still to be passed over, [cur] is the
    piece read so far. *)
Fixpoint split_go (sep : string) (skip : nat) (cur : string) (s : string)
  : list string :=
  match s with
  | EmptyString => [cur]
  | String c s' =>
      match skip with
      | S k => split_go sep k cur s'
      | O =>
          if String.prefix sep s
          then cur :: split_go sep (String.length sep - 1) EmptyString s'
          else split_go sep 0 (cur +:+ String c EmptyString) s'
      end
  end.

(** [list(s)] *)
Fixpoint chars (s : string) : list string :=
  match s with
  | EmptyString => []
  | String c s' => String c EmptyString :: chars s'
  end.

(** [_split_text(text, separator, keep_separator=False)]: the pieces between
    separators, the empty ones dropped. *)
Definition split_text_pieces (text sep : string) : list string :=
  let splits :=
    match sep with
    | EmptyString => chars text
    | _ => split_go sep 0 EmptyString text
    end in
  filter (fun s => s ≠ EmptyString) splits.

Record config : Type := {
  separator : string;
  chunk_size : Z;
  chunk_overlap : Z
}.

Section Merge.
Variable cfg : config.

Definition separator_len : Z := len (separator cfg).

(** [_join_docs]: [None] when the joined text strips to nothing. *)
Definition join_docs (docs : list string) : option string :=
  let text := strip (join (separator cfg) docs) in
  if decide (text = EmptyString) then None else Some text.

Definition sep_if (b : bool) : Z := if b then separator_len else 0.

(** The condition of the inner [while] of [_merge_splits]. *)
Definition keep_popping (_len : Z) (current_doc : list string) (total : Z)
  : bool :=
  (total >? chunk_overlap cfg)
  || ((total + _len + sep_if (0 <? length current_doc)%nat >? chunk_size cfg)
      && (total >? 0)).

(** The inner [while]: drop pieces from the front of [current_doc].
    [current_doc[0]] on an empty list raises [IndexError]. *)
Fixpoint pop_front (_len : Z) (current_doc : list string) (total : Z)
  : result (list string * Z) :=
  if keep_popping _len current_doc total then
    match current_doc with
    | [] => Raise IndexError
    | d0 :: rest =>
        pop_front _len rest
          (total - (len d0 + sep_if (1 <? length current_doc)%nat))
    end
  else Ok (current_doc, total).

Definition push_doc (docs : list string) (current_doc : list string)
  : list string :=
  match join_docs current_doc with
  | Some doc => docs ++ [doc]
  | None => docs
  end.

(** The [for d in splits] loop of [_merge_splits] and the final flush.
    The warning that is logged for an oversized [total] has no effect on
    the result and is left out. *)
Fixpoint merge_loop (splits docs current_doc : list string) (total : Z)
  : result (list string) :=
  match splits with
  | [] => Ok (push_doc docs current_doc)
  | d :: rest =>
      let _len := len d in
      let append docs current_doc total :=
        let current_doc := current_doc ++ [d] in
        merge_loop rest docs current_doc
          (total + (_len + sep_if (1 <? length current_doc)%nat)) in
      if total + _len + sep_if (0 <? length current_doc)%nat
         >? chunk_size cfg
      then
        if (0 <? length current_doc)%nat then
          match pop_front _len current_doc total with
          | Ok (current_doc', total') =>
              append (push_doc docs current_doc) current_doc' total'
          | Raise e => Raise e
          end
        else append docs current_doc total
      else append docs current_doc total
  end.

Definition merge_splits (splits : list string) : result (list string) :=
  merge_loop splits [] [] 0.

(** [CharacterTextSplitter.split_text] *)
Definition split_text (text : string) : result (list string) :=
  merge_splits (split_text_pieces text (separator cfg)).
End Merge.

End Splitter.

(** The splitter that [get_text_chunks] constructs. *)
Definition text_splitter : Splitter.config :=
  {| Splitter.separator := newline;
     Splitter.chunk_size := 1000;
     Splitter.chunk_overlap := 200 |}.

Definition get_text_chunks (raw_text : string) : result (list string) :=
  Splitter.split_text text_splitter raw_text.

(** [s.isspace()] or [s == ""]: nothing but whitespace. *)
Fixpoint blank (s : string) : bool :=
  match s with
  | EmptyString => true
  | String c s' => Splitter.isspace c && blank s'
  end.

(** [c in s] *)
Fixpoint has_char (c : ascii) (s : string) : bool :=
  match s with
  | EmptyString => false
  | String c' s' => if ascii_dec c c' then true else has_char c s'
  end.

(** ** Messages, prompts and the objects of the Python heap *)

(** [HumanMessage] and [AIMessage] of [langchain.schema]. *)
Inductive message : Type :=
  | HumanMessage (content : string)
  | AIMessage (content : string).

Definition content (m : message) : string :=
  match m with HumanMessage c | AIMessage c => c end.

(** [_ROLE_MAP] of [langchain.chains.conversational_retrieval.base]. *)
Definition role_prefix (m : message) : string :=
  match m with
  | HumanMessage _ => "Human: "
  | AIMessage _ => "Assistant: "
  end.

(** [_get_chat_history]: [buffer += f"\n{role_prefix}{content}"] per message. *)
Fixpoint get_chat_history_from (buffer : string) (chat_history : list message)
  : string :=
  match chat_history with
  | [] => buffer
  | turn :: rest =>
      get_chat_history_from
        (buffer +:+ newline +:+ role_prefix turn +:+ content turn) rest
  end.

Definition get_chat_history (chat_history : list message) : string :=
  get_chat_history_from "" chat_history.

(** A prompt template with two placeholders, as the text around them. *)
Record template : Type := {
  before : string;
  between : string;
  after : string
}.

Definition format (t : template) (x y : string) : string :=
  before t +:+ x +:+ between t +:+ y +:+ after t.

(** What [handle_userinput] writes for a message: the user template at even
    positions, the bot template at odd ones. *)
Inductive bubble : Type :=
  | UserBubble (msg : string)
  | BotBubble (msg : string).

(** The messages and the bubbles of a list of (question, answer) turns. *)
Definition turn_messages (turns : list (string * string)) : list message :=
  flat_map (λ turn, [HumanMessage turn.1; AIMessage turn.2]) turns.

Definition turn_bubbles (turns : list (string * string)) : list bubble :=
  flat_map (λ turn, [UserBubble turn.1; BotBubble turn.2]) turns.

(** References are positions in the heap. *)
Abbreviation loc := nat.

(** A value stored in [st.session_state]. *)
Inductive value : Type :=
  | PyNone
  | Ref (l : loc).

(** The calls that leave the process. *)
Inductive call : Type :=
  | EmbedDocuments (texts : list string)
  | EmbedQuery (text : string)
  | Generate (prompt : string).

Definition is_ask_call (c : call) : bool :=
  match c with
  | EmbedDocuments _ => false
  | EmbedQuery _ | Generate _ => true
  end.

(** [s] occurs in [t]. *)
Definition occurs_in (s t : string) : Prop :=
  exists l r, t = l +:+ s +:+ r.

(** The objects [app.py] creates. *)
Inductive obj (Vector : Type) : Type :=
  | FAISS (texts : list string) (vectors : list Vector)
  | Messages (messages : list message)
      (* the list [memory.chat_memory.messages] *)
  | Chain (vectorstore memory : loc).
      (* [ConversationalRetrievalChain]: the store of its retriever and the
         message list of its memory *)
Arguments FAISS {Vector} texts vectors.
Arguments Messages {Vector} messages.
Arguments Chain {Vector} vectorstore memory.

Record world (Vector : Type) : Type := {
  heap : list (obj Vector);
  session_state : gmap string value;
  calls : list call
}.
Arguments heap {Vector} w.
Arguments session_state {Vector} w.
Arguments calls {Vector} w.

(** The texts of the [EmbedQuery] calls of a log. *)
Definition retrieval_queries (log : list call) : list string :=
  omap (λ c, match c with EmbedQuery q => Some q | _ => None end) log.

(** ** Concrete backends, used to run the pipeline on examples *)

Module Demo.
(** A datasheet is the list of its page texts. *)
Definition PdfReader (datasheet : list string) : result (list string) :=
  Ok datasheet.
Definition extract_text (page : string) : result string := Ok page.

(** A text is embedded as itself. *)
Definition embed_documents (_ : list call) (texts : list string)
  : result (list string) := Ok texts.
Definition embed_query (_ : list call) (text : string) : result string :=
  Ok text.

Fixpoint occurs (s t : string) : bool :=
  String.prefix s t
  || match t with
     | EmptyString => false
     | String _ t' => occurs s t'
     end.

(** The stored texts that occur in the query. *)
Definition index_search (texts : list string) (_ : list string)
    (query : string) : list string :=
  List.filter (λ t, occurs t query) texts.

(** A model that repeats its prompt, and one that is unreachable. *)
Definition llm (_ : list call) (prompt : string) : result string :=
  Ok prompt.
Definition llm_down (_ : list call) (_ : string) : result string :=
  Raise (BackendError "timeout").

Definition CONDENSE_QUESTION_PROMPT : template :=
  {| before := "Chat History:";
     between := newline +:+ "Follow Up Input: ";
     after := newline +:+ "Standalone question:" |}.
Definition QA_PROMPT : template :=
  {| before := "Context: ";
     between := newline +:+ "Question: ";
     after := "" |}.

Definition texts : list string := ["LM317"; "NE555"].

(** A session over [texts] whose memory holds [history]. *)
Definition session (history : list message) : world string :=
  {| heap := [FAISS texts texts; Messages history; Chain 0%nat 1%nat];
     session_state :=
       <["conversation" := Ref 2%nat]> (<["chat_history" := PyNone]> ∅);
     calls := [] |}.

(** The state after the first run of [main], before any processing. *)
Definition fresh : world string :=
  {| heap := [];
     session_state :=
       <["conversation" := PyNone]> (<["chat_history" := PyNone]> ∅);
     calls := [] |}.

Definition history : list message :=
  [HumanMessage "What is the NE555?"; AIMessage "A timer."].
End Demo.

(** ** The pipeline over an explicit world *)

Section Pipeline.
Context {Datasheet Page Vector : Type}.
(** PyPDF2. *)
Variable PdfReader : Datasheet -> result (list Page).
Variable extract_text : Page -> result string.
(** [OpenAIEmbeddings.embed_documents] and [embed_query]: remote, so the
    outcome may depend on the calls made so far. *)
Variable embed_documents : list call -> list string -> result (list Vector).
Variable embed_query : list call -> string -> result Vector.
(** The FAISS index search behind [similarity_search] (the [k = 4] nearest
    texts of the store). *)
Variable index_search : list string -> list Vector -> Vector -> list string.
(** [ChatOpenAI] on a formatted prompt. *)
Variable llm : list call -> string -> result string.
(** The prompts of the chain: [CONDENSE_QUESTION_PROMPT] over
    [chat_history] and [question], the question-answering prompt of the
    stuff-documents chain over [context] and [question]. *)
Variable CONDENSE_QUESTION_PROMPT : template.
Variable QA_PROMPT : template.

#[local] Abbreviation obj := (obj Vector).
#[local] Abbreviation world := (world Vector).

Definition with_heap (h : list obj) (w : world) : world :=
  {| heap := h; session_state := session_state w; calls := calls w |}.
Definition with_session_state (s : gmap string value) (w : world) : world :=
  {| heap := heap w; session_state := s; calls := calls w |}.
Definition with_calls (c : list call) (w : world) : world :=
  {| heap := heap w; session_state := session_state w; calls := c |}.

(** Computations of [app.py]: a result and the world as it is when the
    computation returns or raises. *)
Definition M (A : Type) : Type := world -> result A * world.

#[local] Instance M_ret : MRet M := λ A a w, (Ok a, w).
#[local] Instance M_bind : MBind M := λ A B f m w,
  match m w with
  | (Ok a, w') => f a w'
  | (Raise e, w') => (Raise e, w')
  end.

Definition raise {A} (e : exn) : M A := λ w, (Raise e, w).
Definition lift {A} (r : result A) : M A := λ w, (r, w).

(** A new object. *)
Definition alloc (o : obj) : M loc :=
  λ w, (Ok (length (heap w)), with_heap (heap w ++ [o]) w).

(** The object behind a reference.  References come from [alloc], so the
    last case is not reached by [main]. *)
Definition load (l : loc) : M obj :=
  λ w, match heap w !! l with
       | Some o => (Ok o, w)
       | None => (Raise AttributeError, w)
       end.

(** [messages.append] for each of [new]. *)
Definition extend_messages (memory : loc) (new : list message) : M unit :=
  λ w, match heap w !! memory with
       | Some (Messages messages) =>
           (Ok tt,
            with_heap (<[memory := Messages (messages ++ new)]> (heap w)) w)
       | _ => (Raise AttributeError, w)
       end.

(** A remote call: logged, then answered or failed by the backend. *)
Definition remote {A} (c : call) (backend : list call -> result A) : M A :=
  λ w, (backend (calls w), with_calls (calls w ++ [c]) w).

Definition generate (prompt : string) : M string :=
  remote (Generate prompt) (λ log, llm log prompt).

(** [st.session_state.<key>] *)
Definition get_attr (key : string) : M value :=
  λ w, match session_state w !! key with
       | Some v => (Ok v, w)
       | None => (Raise AttributeError, w)
       end.

(** [st.session_state.<key> = v] *)
Definition set_attr (key : string) (v : value) : M unit :=
  λ w, (Ok tt, with_session_state (<[key := v]> (session_state w)) w).

(** [if key not in st.session_state: st.session_state.<key> = None] *)
Definition init_attr (key : string) : M unit :=
  λ w, match session_state w !! key with
       | Some _ => (Ok tt, w)
       | None => set_attr key PyNone w
       end.

(** *** [get_vectorstore]: [FAISS.from_texts] takes the dimension of the
    index from [embeddings[0]]. *)
Definition get_vectorstore (text_chunks : list string) : M loc :=
  embeddings ← remote (EmbedDocuments text_chunks)
                 (λ log, embed_documents log text_chunks);
  match embeddings with
  | [] => raise IndexError
  | _ :: _ => alloc (FAISS text_chunks embeddings)
  end.

(** *** [get_conversation_chain] *)
Definition get_conversation_chain (vectorstore : loc) : M loc :=
  memory ← alloc (Messages []);
  alloc (Chain vectorstore memory).

(** *** The call of a [ConversationalRetrievalChain] *)

(** [vectorstore.similarity_search(query)], through the retriever. *)
Definition similarity_search (vectorstore : loc) (query : string)
  : M (list string) :=
  o ← load vectorstore;
  match o with
  | FAISS texts vectors =>
      v ← remote (EmbedQuery query) (λ log, embed_query log query);
      mret (index_search texts vectors v)
  | _ => raise AttributeError
  end.

(** The first half of [ConversationalRetrievalChain._call]: the question
    is condensed with the history when there is one, and the documents are
    retrieved for the resulting question. *)
Definition retrieve (vectorstore : loc) (chat_history : list message)
    (question : string) : M (string * list string) :=
  let chat_history_str := get_chat_history chat_history in
  new_question ←
    (if decide (chat_history_str = "") then mret question
     else generate (format CONDENSE_QUESTION_PROMPT chat_history_str question));
  docs ← similarity_search vectorstore new_question;
  mret (new_question, docs).

(** [_call]: the answer comes from the stuffed documents and the
    (rephrased) question. *)
Definition chain_call (vectorstore : loc) (chat_history : list message)
    (question : string) : M string :=
  '(new_question, docs) ← retrieve vectorstore chat_history question;
  generate (format QA_PROMPT (join (newline +:+ newline) docs) new_question).

Record response : Type := {
  resp_question : string;
  resp_chat_history : loc;
  resp_answer : string
}.

(** [conversation({'question': question})]: [Chain.__call__] loads the
    memory into the inputs, runs [_call], saves the turn and returns inputs
    and outputs together; [response['chat_history']] is the list object of
    the memory itself.  Anything that is not a chain is not callable. *)
Definition call_conversation (conversation : value) (question : string)
  : M response :=
  match conversation with
  | PyNone => raise TypeError
  | Ref l =>
      o ← load l;
      match o with
      | Chain vectorstore memory =>
          m ← load memory;
          match m with
          | Messages chat_history =>
              answer ← chain_call vectorstore chat_history question;
              _ ← extend_messages memory
                    [HumanMessage question; AIMessage answer];
              mret {| resp_question := question;
                      resp_chat_history := memory;
                      resp_answer := answer |}
          | _ => raise AttributeError
          end
      | _ => raise TypeError
      end
  end.

(** *** [handle_userinput] *)

Definition render (chat_history : list message) : list bubble :=
  imap (λ i message,
          if Nat.even i then UserBubble (content message)
          else BotBubble (content message)) chat_history.

Definition handle_userinput (user_question : string) : M (list bubble) :=
  conversation ← get_attr "conversation";
  response ← call_conversation conversation user_question;
  _ ← set_attr "chat_history" (Ref (resp_chat_history response));
  chat_history ← get_attr "chat_history";
  match chat_history with
  | PyNone => raise TypeError
  | Ref l =>
      o ← load l;
      match o with
      | Messages messages => mret (render messages)
      | _ => raise TypeError
      end
  end.

(** *** [main]: one run of the script *)

(** What the widgets return in a run. *)
Record ui_input : Type := {
  user_question : string;
  datasheets : list Datasheet;
  process : bool
}.

(** The body of [if st.button('Process')]. *)
Definition process_datasheets (datasheets : list Datasheet) : M unit :=
  raw_text ← lift (get_datasheets_text PdfReader extract_text datasheets);
  text_chunks ← lift (get_text_chunks raw_text);
  vectorstore ← get_vectorstore text_chunks;
  conversation ← get_conversation_chain vectorstore;
  set_attr "conversation" (Ref conversation).

(** [if user_question: handle_userinput(user_question)] *)
Definition question_part (user_question : string) : M (list bubble) :=
  if decide (user_question = "") then mret []
  else handle_userinput user_question.

Definition main (ui : ui_input) : M (list bubble) :=
  _ ← init_attr "conversation";
  _ ← init_attr "chat_history";
  shown ← question_part (user_question ui);
  _ ← (if process ui then process_datasheets (datasheets ui) else mret tt);
  mret shown.

(** *** Predicates on worlds *)

(** The calls made between [w] and [w']. *)
Definition new_calls (w w' : world) : list call :=
  drop (length (calls w)) (calls w').

(** [l] is a chain whose store and memory are in place. *)
Definition chain_ready (h : list obj) (l : loc) : Prop :=
  ∃ vectorstore memory texts vectors messages,
    h !! l = Some (Chain vectorstore memory)
    ∧ h !! vectorstore = Some (FAISS texts vectors)
    ∧ h !! memory = Some (Messages messages).

(** The session state holds a chain: the state the specification calls
    Ready.  The other state has [None] there. *)
Definition session_ready (w : world) : Prop :=
  ∃ l, session_state w !! "conversation" = Some (Ref l)
       ∧ chain_ready (heap w) l.

(** Both session keys exist, as they do after the first run of [main]. *)
Definition initialised (w : world) : Prop :=
  is_Some (session_state w !! "conversation")
  ∧ is_Some (session_state w !! "chat_history").

(** How the world may change: objects are only added, stores and chains
    stay as they are, message lists only grow at the end, and the log only
    grows. *)
Definition evolves (w w' : world) : Prop :=
  (length (heap w) ≤ length (heap w'))%nat
  ∧ (∀ l o, heap w !! l = Some o →
       match o with
       | Messages messages =>
           ∃ new, heap w' !! l = Some (Messages (messages ++ new))
       | _ => heap w' !! l = Some o
       end)
  ∧ (∃ new, calls w' = calls w ++ new).

Definition monotone {A} (m : M A) : Prop := ∀ w, evolves w (m w).2.

(** The world once [main] has created the two session keys it needs. *)
Definition init_state (w : world) : world :=
  (init_attr "chat_history" (init_attr "conversation" w).2).2.

(** [main] after the creation of the session keys. *)
Definition main_body (ui : ui_input) : M (list bubble) :=
  shown ← question_part (user_question ui);
  _ ← (if process ui then process_datasheets (datasheets ui) else mret tt);
  mret shown.

(** The script is run again at every interaction; the session state and
    the objects it refers to are carried over, whatever the run returned. *)
Fixpoint runs (uis : list ui_input) (w : world) : world :=
  match uis with
  | [] => w
  | ui :: rest => runs rest (main ui w).2
  end.

(** Nothing has been processed yet: [conversation] is [None]. *)
Definition session_uninitialised (w : world) : Prop :=
  session_state w !! "conversation" = Some PyNone.

(** Every message list on the heap is made of whole turns. *)
Definition whole_turns (h : list obj) : Prop :=
  ∀ l messages, h !! l = Some (Messages messages) →
                ∃ turns, messages = turn_messages turns.

(** [m] keeps the message lists made of whole turns. *)
Definition keeps_turns {A} (m : M A) : Prop :=
  ∀ w, whole_turns (heap w) → whole_turns (heap (m w).2).

(** [m] changes nothing but the log of calls. *)
Definition log_only {A} (m : M A) : Prop :=
  ∀ w, heap (m w).2 = heap w ∧ session_state (m w).2 = session_state w.

(** *** Strings *)

Lemma append_cons (c : ascii) (s t : string) :
  String c s +:+ t = String c (s +:+ t).
Proof. reflexivity. Qed.

Lemma append_nil_l (s : string) : "" +:+ s = s.
Proof. reflexivity. Qed.

Lemma append_nil_r (s : string) : s +:+ "" = s.
Proof.
  induction s as [|c s IH]; [done|]. by rewrite append_cons, IH.
Qed.

Lemma append_assoc (s1 s2 s3 : string) :
  (s1 +:+ s2) +:+ s3 = s1 +:+ (s2 +:+ s3).
Proof.
  induction s1 as [|c s1 IH]; [done|]. by rewrite !append_cons, IH.
Qed.

Lemma length_append (s1 s2 : string) :
  String.length (s1 +:+ s2) = (String.length s1 + String.length s2)%nat.
Proof.
  induction s1 as [|c s1 IH]; [done|]. rewrite append_cons. simpl.
  by rewrite IH.
Qed.

(** *** The frame of every computation: [evolves] *)

Lemma evolves_refl (w : world) : evolves w w.
Proof.
  split; [lia|]. split.
  - intros l [] Hl; [done| |done]. exists []. by rewrite app_nil_r.
  - exists []. by rewrite app_nil_r.
Qed.

Lemma evolves_trans (w1 w2 w3 : world) :
  evolves w1 w2 → evolves w2 w3 → evolves w1 w3.
Proof.
  intros (Hlen1 & Hobj1 & [c1 Hc1]) (Hlen2 & Hobj2 & [c2 Hc2]).
  split; [lia|]. split.
  - intros l o Hl. specialize (Hobj1 l o Hl). destruct o.
    + by apply (Hobj2 l (FAISS texts vectors)).
    + destruct Hobj1 as [n1 Hn1].
      destruct (Hobj2 l _ Hn1) as [n2 Hn2].
      exists (n1 ++ n2). by rewrite app_assoc.
    + by apply (Hobj2 l (Chain vectorstore memory)).
  - exists (c1 ++ c2). by rewrite Hc2, Hc1, app_assoc.
Qed.

Lemma monotone_ret {A} (a : A) : monotone (mret a).
Proof. intros w. apply evolves_refl. Qed.

Lemma monotone_raise {A} (e : exn) : monotone (@raise A e).
Proof. intros w. apply evolves_refl. Qed.

Lemma monotone_lift {A} (r : result A) : monotone (lift r).
Proof. intros w. apply evolves_refl. Qed.

Lemma monotone_bind {A B} (m : M A) (f : A → M B) :
  monotone m → (∀ a, monotone (f a)) → monotone (m ≫= f).
Proof.
  intros Hm Hf w. unfold mbind, M_bind. specialize (Hm w).
  destruct (m w) as [[a|e] w1]; simpl in *; [|done].
  eapply evolves_trans; [exact Hm|apply Hf].
Qed.

Lemma monotone_alloc (o : obj) : monotone (alloc o).
Proof.
  intros w. unfold alloc, with_heap; simpl.
  split; [simpl; rewrite length_app; lia|]. split; simpl.
  - intros l o' Hl.
    assert (Hl' : (heap w ++ [o]) !! l = Some o')
      by (by apply lookup_app_l_Some).
    destruct o'; [done| |done]. exists []. by rewrite app_nil_r.
  - exists []. by rewrite app_nil_r.
Qed.

Lemma monotone_load (l : loc) : monotone (load l).
Proof. intros w. unfold load. destruct (heap w !! l); apply evolves_refl. Qed.

Lemma monotone_extend_messages (memory : loc) (new : list message) :
  monotone (extend_messages memory new).
Proof.
  intros w. unfold extend_messages.
  destruct (heap w !! memory) as [[| messages |]|] eqn:Hm;
    try apply evolves_refl.
  unfold with_heap; simpl.
  split; [by simpl; rewrite length_insert|]. split; simpl.
  - intros l o Hl. destruct (decide (l = memory)) as [->|Hne].
    + assert (o = Messages messages) as -> by congruence.
      exists new. apply list_lookup_insert_eq. by eapply lookup_lt_Some.
    + rewrite list_lookup_insert_ne by done.
      destruct o; [done| |done]. exists []. by rewrite app_nil_r.
  - exists []. by rewrite app_nil_r.
Qed.

Lemma monotone_remote {A} (c : call) (backend : list call → result A) :
  monotone (remote c backend).
Proof.
  intros w. unfold remote, with_calls; simpl. split; [done|]. split; simpl.
  - intros l [] Hl; [done| |done]. exists []. by rewrite app_nil_r.
  - by exists [c].
Qed.

Lemma monotone_get_attr (key : string) : monotone (get_attr key).
Proof.
  intros w. unfold get_attr. destruct (session_state w !! key);
    apply evolves_refl.
Qed.

Lemma monotone_set_attr (key : string) (v : value) :
  monotone (set_attr key v).
Proof. intros w. apply (evolves_refl w). Qed.

Lemma monotone_init_attr (key : string) : monotone (init_attr key).
Proof.
  intros w. unfold init_attr. destruct (session_state w !! key);
    apply (evolves_refl w).
Qed.

Create HintDb mono.
#[local] Hint Resolve monotone_ret monotone_raise monotone_lift
  monotone_alloc monotone_load monotone_extend_messages monotone_remote
  monotone_get_attr monotone_set_attr monotone_init_attr : mono.

(** Splits a goal [monotone m] along the binds and branches of [m]. *)
Ltac mono :=
  repeat first
    [ solve [auto with mono]
    | apply monotone_bind; [|intros ?]
    | match goal with
      | |- monotone (match ?x with _ => _ end) => destruct x
      | |- monotone (if ?b then _ else _) => destruct b
      end ].

Lemma monotone_get_vectorstore text_chunks :
  monotone (get_vectorstore text_chunks).
Proof. unfold get_vectorstore. mono. Qed.

Lemma monotone_get_conversation_chain vectorstore :
  monotone (get_conversation_chain vectorstore).
Proof. unfold get_conversation_chain. mono. Qed.

Lemma monotone_call_conversation conversation question :
  monotone (call_conversation conversation question).
Proof.
  unfold call_conversation, chain_call, retrieve, similarity_search,
    generate.
  mono.
Qed.

#[local] Hint Resolve monotone_get_vectorstore
  monotone_get_conversation_chain monotone_call_conversation : mono.

Lemma monotone_handle_userinput user_question :
  monotone (handle_userinput user_question).
Proof.
  unfold handle_userinput. mono.
Qed.

Lemma monotone_process_datasheets ds : monotone (process_datasheets ds).
Proof.
  unfold process_datasheets. mono.
Qed.

#[local] Hint Resolve monotone_handle_userinput
  monotone_process_datasheets : mono.

Lemma monotone_main ui : monotone (main ui).
Proof.
  unfold main, question_part. mono.
Qed.

(** *** What a call of the conversation does *)

(** Unfolds the monad and the primitive operations. *)
Ltac run :=
  unfold generate in *;
  unfold mbind, M_bind, mret, M_ret, raise, lift, remote, load,
    alloc, get_attr, set_attr, init_attr, extend_messages, with_heap,
    with_calls, with_session_state in *;
  cbn [heap session_state calls fst snd] in *.

Lemma get_chat_history_from_app buffer chat_history :
  get_chat_history_from buffer chat_history
  = buffer +:+ get_chat_history chat_history.
Proof.
  unfold get_chat_history. revert buffer.
  induction chat_history as [|turn rest IH]; intros buffer; simpl.
  - by rewrite append_nil_r.
  - rewrite IH, (IH ("" +:+ _)). by rewrite append_nil_l, !append_assoc.
Qed.

Lemma get_chat_history_cons turn rest :
  get_chat_history (turn :: rest)
  = newline +:+ role_prefix turn +:+ content turn +:+ get_chat_history rest.
Proof.
  unfold get_chat_history at 1; simpl.
  by rewrite get_chat_history_from_app, append_nil_l, !append_assoc.
Qed.

Lemma get_chat_history_app h1 h2 :
  get_chat_history (h1 ++ h2) = get_chat_history h1 +:+ get_chat_history h2.
Proof.
  induction h1 as [|turn rest IH]; [done|]. simpl.
  by rewrite !get_chat_history_cons, IH, !append_assoc.
Qed.

Lemma get_chat_history_empty chat_history :
  get_chat_history chat_history = "" ↔ chat_history = [].
Proof.
  split; [|by intros ->].
  destruct chat_history as [|turn rest]; [done|].
  by rewrite get_chat_history_cons.
Qed.

(** The two shapes of [retrieve]. *)
Lemma retrieve_no_history vectorstore question :
  retrieve vectorstore [] question
  = (docs ← similarity_search vectorstore question; mret (question, docs)).
Proof. done. Qed.

Lemma retrieve_with_history vectorstore chat_history question :
  chat_history ≠ [] →
  retrieve vectorstore chat_history question
  = (new_question ← generate (format CONDENSE_QUESTION_PROMPT
                                (get_chat_history chat_history) question);
     docs ← similarity_search vectorstore new_question;
     mret (new_question, docs)).
Proof.
  intros Hne. unfold retrieve.
  destruct (decide (get_chat_history chat_history = "")) as [He|]; [|done].
  by apply get_chat_history_empty in He.
Qed.

(** [chain_call] touches nothing but the log. *)
Lemma log_only_bind {A B} (m : M A) (f : A → M B) :
  log_only m → (∀ a, log_only (f a)) → log_only (m ≫= f).
Proof.
  intros Hm Hf w. unfold mbind, M_bind. specialize (Hm w).
  destruct (m w) as [[a|e] w1]; simpl in *; [|done].
  destruct (Hf a w1) as [-> ->]. done.
Qed.

Lemma log_only_remote {A} (c : call) (backend : list call → result A) :
  log_only (remote c backend).
Proof. done. Qed.

Lemma log_only_load (l : loc) : log_only (load l).
Proof. intros w. unfold load. by destruct (heap w !! l). Qed.

Lemma log_only_chain_call vectorstore chat_history question :
  log_only (chain_call vectorstore chat_history question).
Proof.
  unfold chain_call, retrieve, similarity_search, generate.
  repeat first
    [ done
    | apply log_only_remote
    | apply log_only_load
    | apply log_only_bind; [|intros ?]
    | match goal with
      | |- log_only (match ?x with _ => _ end) => destruct x
      | |- log_only (if ?b then _ else _) => destruct b
      end ].
Qed.

Lemma chain_call_frame vectorstore chat_history question w r w' :
  chain_call vectorstore chat_history question w = (r, w') →
  heap w' = heap w ∧ session_state w' = session_state w.
Proof.
  intros H.
  pose proof (log_only_chain_call vectorstore chat_history question w) as F.
  by rewrite H in F.
Qed.

Lemma extend_messages_ok memory new w w' :
  extend_messages memory new w = (Ok (), w') →
  ∃ messages, heap w !! memory = Some (Messages messages)
    ∧ w' = with_heap (<[memory := Messages (messages ++ new)]> (heap w)) w.
Proof.
  unfold extend_messages. intros H.
  repeat case_match; simplify_eq/=. eauto.
Qed.

Lemma call_conversation_raise conversation question w e w' :
  call_conversation conversation question w = (Raise e, w') →
  heap w' = heap w ∧ session_state w' = session_state w.
Proof.
  unfold call_conversation. intros H.
  destruct conversation as [|l]; [by run; simplify_eq|].
  unfold mbind, M_bind, load in H.
  destruct (heap w !! l) as [[| |vectorstore memory]|];
    [by run; simplify_eq..| |by run; simplify_eq].
  destruct (heap w !! memory) as [[|chat_history|]|] eqn:Hm;
    [by run; simplify_eq| |by run; simplify_eq..].
  destruct (chain_call vectorstore chat_history question w)
    as [[answer|e'] w1] eqn:Hcall.
  - apply chain_call_frame in Hcall as [Hh Hs].
    unfold extend_messages in H. rewrite Hh, Hm in H. by run; simplify_eq.
  - apply chain_call_frame in Hcall. by simplify_eq.
Qed.

Lemma call_conversation_ok conversation question w r w' :
  call_conversation conversation question w = (Ok r, w') →
  ∃ l vectorstore memory chat_history w1,
    conversation = Ref l
    ∧ heap w !! l = Some (Chain vectorstore memory)
    ∧ heap w !! memory = Some (Messages chat_history)
    ∧ chain_call vectorstore chat_history question w
      = (Ok (resp_answer r), w1)
    ∧ resp_question r = question
    ∧ resp_chat_history r = memory
    ∧ heap w' = <[memory := Messages
                    (chat_history ++ [HumanMessage question;
                                      AIMessage (resp_answer r)])]> (heap w)
    ∧ session_state w' = session_state w
    ∧ calls w' = calls w1.
Proof.
  unfold call_conversation. intros H.
  destruct conversation as [|l]; [by run; simplify_eq|].
  unfold mbind, M_bind, load in H.
  destruct (heap w !! l) as [[| |vectorstore memory]|] eqn:Hl;
    [by run; simplify_eq..| |by run; simplify_eq].
  destruct (heap w !! memory) as [[|chat_history|]|] eqn:Hm;
    [by run; simplify_eq| |by run; simplify_eq..].
  destruct (chain_call vectorstore chat_history question w)
    as [[answer|e'] w1] eqn:Hcall; [|by simplify_eq].
  pose proof (chain_call_frame _ _ _ _ _ _ Hcall) as [Hh Hs].
  unfold extend_messages in H. rewrite Hh, Hm in H. run. simplify_eq/=.
  by exists l, vectorstore, memory, chat_history, w1.
Qed.

(** [chain_call] written out over a store that is in place: [after nq log]
    is the retrieval and the answer for the question [nq] once [log] has
    been made. *)
Lemma chain_call_run vectorstore texts vectors chat_history question w :
  heap w !! vectorstore = Some (FAISS texts vectors) →
  chain_call vectorstore chat_history question w
  = let after nq log :=
      match embed_query log nq with
      | Raise e => (Raise e, with_calls (log ++ [EmbedQuery nq]) w)
      | Ok v =>
          let qa := format QA_PROMPT
                      (join (newline +:+ newline)
                         (index_search texts vectors v)) nq in
          (llm (log ++ [EmbedQuery nq]) qa,
           with_calls ((log ++ [EmbedQuery nq]) ++ [Generate qa]) w)
      end in
    match chat_history with
    | [] => after question (calls w)
    | _ =>
        let cp := format CONDENSE_QUESTION_PROMPT
                    (get_chat_history chat_history) question in
        match llm (calls w) cp with
        | Raise e => (Raise e, with_calls (calls w ++ [Generate cp]) w)
        | Ok nq => after nq (calls w ++ [Generate cp])
        end
    end.
Proof.
  intros Hvs. unfold chain_call.
  destruct chat_history as [|turn rest].
  - rewrite retrieve_no_history. unfold similarity_search. run.
    rewrite Hvs. run. by destruct (embed_query (calls w) question).
  - rewrite retrieve_with_history by done. unfold similarity_search. run.
    destruct (llm (calls w) _) as [nq|e]; [|done].
    rewrite Hvs. run. by destruct (embed_query _ nq).
Qed.

(** [handle_userinput] written out over a session that is in place. *)
Lemma handle_userinput_run user_question w l vectorstore memory chat_history :
  session_state w !! "conversation" = Some (Ref l) →
  heap w !! l = Some (Chain vectorstore memory) →
  heap w !! memory = Some (Messages chat_history) →
  handle_userinput user_question w
  = match chain_call vectorstore chat_history user_question w with
    | (Ok answer, w1) =>
        let messages :=
          chat_history ++ [HumanMessage user_question; AIMessage answer] in
        (Ok (render messages),
         {| heap := <[memory := Messages messages]> (heap w);
            session_state :=
              <["chat_history" := Ref memory]> (session_state w);
            calls := calls w1 |})
    | (Raise e, w1) => (Raise e, w1)
    end.
Proof.
  intros Hc Hl Hm. unfold handle_userinput, call_conversation. run.
  rewrite Hc. run. rewrite Hl. run. rewrite Hm. run.
  destruct (chain_call vectorstore chat_history user_question w)
    as [[answer|e] w1] eqn:Hcall; [|done].
  apply chain_call_frame in Hcall as [Hh Hs].
  rewrite Hh, Hm. run. rewrite lookup_insert_eq. run.
  rewrite list_lookup_insert_eq by (by eapply lookup_lt_Some).
  by rewrite Hs.
Qed.

Lemma handle_userinput_raise user_question w e w' :
  handle_userinput user_question w = (Raise e, w') →
  heap w' = heap w ∧ session_state w' = session_state w.
Proof.
  unfold handle_userinput. intros H.
  unfold mbind at 1, M_bind at 1, get_attr at 1 in H.
  destruct (session_state w !! "conversation") as [conversation|];
    [|by simplify_eq].
  unfold mbind at 1, M_bind at 1 in H.
  destruct (call_conversation conversation user_question w)
    as [[r|e'] w1] eqn:Hcall.
  - exfalso.
    apply call_conversation_ok in Hcall
      as (l & vs & memory & h & w2 & -> & Hl & Hm & _ & _ & Hr & Hh & _).
    run. rewrite lookup_insert_eq in H. run. rewrite Hr, Hh in H.
    rewrite list_lookup_insert_eq in H by (by eapply lookup_lt_Some).
    by simplify_eq.
  - apply call_conversation_raise in Hcall. by simplify_eq.
Qed.

Lemma handle_userinput_ok user_question w shown w' :
  handle_userinput user_question w = (Ok shown, w') →
  ∃ l vectorstore memory chat_history answer w1,
    session_state w !! "conversation" = Some (Ref l)
    ∧ heap w !! l = Some (Chain vectorstore memory)
    ∧ heap w !! memory = Some (Messages chat_history)
    ∧ chain_call vectorstore chat_history user_question w = (Ok answer, w1)
    ∧ heap w' = <[memory := Messages
                    (chat_history ++ [HumanMessage user_question;
                                      AIMessage answer])]> (heap w)
    ∧ session_state w'
      = <["chat_history" := Ref memory]> (session_state w)
    ∧ calls w' = calls w1
    ∧ shown = render (chat_history ++ [HumanMessage user_question;
                                       AIMessage answer]).
Proof.
  unfold handle_userinput. intros H.
  unfold mbind at 1, M_bind at 1, get_attr at 1 in H.
  destruct (session_state w !! "conversation") as [conversation|] eqn:Hc;
    [|by simplify_eq].
  unfold mbind at 1, M_bind at 1 in H.
  destruct (call_conversation conversation user_question w)
    as [[r|e'] w1] eqn:Hcall; [|by simplify_eq].
  apply call_conversation_ok in Hcall
    as (l & vs & memory & h & w2 & -> & Hl & Hm & Hcall & _ & Hr & Hh
        & Hs & Hlog).
  run. rewrite lookup_insert_eq in H. run. rewrite Hr, Hh in H.
  rewrite list_lookup_insert_eq in H by (by eapply lookup_lt_Some).
  simplify_eq/=.
  exists l, vs, (resp_chat_history r), h, (resp_answer r), w2.
  by rewrite Hs.
Qed.

(** *** The runs of [main] *)

Lemma init_attr_state key w :
  init_attr key w
  = (Ok (), match session_state w !! key with
            | Some _ => w
            | None => with_session_state (<[key := PyNone]> (session_state w)) w
            end).
Proof. unfold init_attr. by destruct (session_state w !! key). Qed.

Lemma main_init ui w : main ui w = main_body ui (init_state w).
Proof.
  unfold main, main_body, init_state.
  unfold mbind at 1, M_bind at 1. rewrite init_attr_state. simpl.
  unfold mbind at 1, M_bind at 1. by rewrite init_attr_state.
Qed.

Lemma init_state_heap w : heap (init_state w) = heap w.
Proof.
  unfold init_state. rewrite !init_attr_state. simpl.
  by repeat case_match.
Qed.

Lemma init_state_calls w : calls (init_state w) = calls w.
Proof.
  unfold init_state. rewrite !init_attr_state. simpl.
  by repeat case_match.
Qed.

Lemma init_attr_lookup k w key v :
  session_state w !! key = Some v →
  session_state (init_attr k w).2 !! key = Some v.
Proof.
  intros Hk. rewrite init_attr_state.
  destruct (session_state w !! k) eqn:Hw; [done|]. simpl.
  rewrite lookup_insert_ne; [done|]. congruence.
Qed.

Lemma init_state_lookup w key v :
  session_state w !! key = Some v →
  session_state (init_state w) !! key = Some v.
Proof. intros Hk. by do 2 apply init_attr_lookup. Qed.

Lemma init_state_initialised w :
  initialised w → init_state w = w.
Proof.
  intros [[v1 H1] [v2 H2]]. unfold init_state.
  rewrite !init_attr_state. simpl. rewrite H1. by rewrite H2.
Qed.

Lemma init_attr_present k w : is_Some (session_state (init_attr k w).2 !! k).
Proof.
  rewrite init_attr_state.
  destruct (session_state w !! k) eqn:Hw; simpl.
  - rewrite Hw. eauto.
  - rewrite lookup_insert_eq. eauto.
Qed.

Lemma init_state_is_initialised w : initialised (init_state w).
Proof.
  split; [|apply init_attr_present].
  destruct (init_attr_present "conversation" w) as [v Hv].
  exists v. by apply init_attr_lookup.
Qed.

Lemma process_datasheets_raise ds w e w' :
  process_datasheets ds w = (Raise e, w') →
  heap w' = heap w ∧ session_state w' = session_state w.
Proof.
  unfold process_datasheets, get_vectorstore, get_conversation_chain. run.
  intros H. repeat case_match; by simplify_eq/=.
Qed.

Lemma process_datasheets_ok ds w u w' :
  process_datasheets ds w = (Ok u, w') →
  ∃ raw_text text_chunks embeddings,
    get_datasheets_text PdfReader extract_text ds = Ok raw_text
    ∧ get_text_chunks raw_text = Ok text_chunks
    ∧ embed_documents (calls w) text_chunks = Ok embeddings
    ∧ embeddings ≠ []
    ∧ heap w' = heap w ++ [FAISS text_chunks embeddings; Messages [];
                           Chain (length (heap w)) (S (length (heap w)))]
    ∧ session_state w'
      = <["conversation" := Ref (S (S (length (heap w))))]>
          (session_state w)
    ∧ calls w' = calls w ++ [EmbedDocuments text_chunks].
Proof.
  unfold process_datasheets, get_vectorstore, get_conversation_chain. run.
  intros H. repeat case_match; simplify_eq/=.
  eexists _, _, _. repeat split; try done.
  - rewrite length_app, Nat.add_1_r. by rewrite <-!app_assoc.
  - rewrite !length_app. simpl. by rewrite !Nat.add_1_r.
Qed.

Lemma process_datasheets_calls ds w :
  ∃ new, calls (process_datasheets ds w).2 = calls w ++ new
         ∧ Forall (λ c, is_ask_call c = false) new.
Proof.
  unfold process_datasheets, get_vectorstore, get_conversation_chain. run.
  repeat case_match; simplify_eq/=;
    first [ by exists []; rewrite app_nil_r
          | eexists [_]; split; [done|]; by repeat constructor ].
Qed.

Lemma new_calls_app (w w' : world) new :
  calls w' = calls w ++ new → new_calls w w' = new.
Proof. intros H. unfold new_calls. by rewrite H, drop_app_length. Qed.

Lemma evolves_chain_ready w w' l :
  evolves w w' → chain_ready (heap w) l → chain_ready (heap w') l.
Proof.
  intros (_ & Hobj & _) (vs & memory & texts & vectors & messages
                         & Hl & Hvs & Hm).
  destruct (Hobj _ _ Hm) as [new Hm'].
  exists vs, memory, texts, vectors, (messages ++ new).
  split; [exact (Hobj _ _ Hl)|]. split; [exact (Hobj _ _ Hvs)|done].
Qed.

(** *** Text extraction *)

Lemma join_empty_cons (x : string) (xs : list string) :
  join "" (x :: xs) = x +:+ join "" xs.
Proof.
  unfold join. destruct xs as [|y ys]; simpl; [by rewrite append_nil_r|done].
Qed.

Lemma join_empty_app (xs ys : list string) :
  join "" (xs ++ ys) = join "" xs +:+ join "" ys.
Proof.
  induction xs as [|x xs IH]; [done|].
  change ((x :: xs) ++ ys) with (x :: (xs ++ ys)).
  by rewrite !join_empty_cons, IH, append_assoc.
Qed.

Lemma join_empty_filter (xs : list string) :
  join "" (filter (λ t, t ≠ "") xs) = join "" xs.
Proof.
  induction xs as [|x xs IH]; [done|].
  rewrite filter_cons. destruct (decide (x = "")) as [->|Hx].
  - rewrite decide_False by (by intros []).
    by rewrite join_empty_cons, IH.
  - rewrite decide_True by done. by rewrite !join_empty_cons, IH.
Qed.

Lemma pages_loop_concat text pages texts :
  Forall2 (λ page t, extract_text page = Ok t) pages texts →
  pages_loop extract_text text pages = Ok (text +:+ join "" texts).
Proof.
  intros H. revert text.
  induction H as [|page t pages texts Hp _ IH]; intros text;
    cbn [pages_loop].
  - by rewrite append_nil_r.
  - by rewrite Hp, IH, join_empty_cons, append_assoc.
Qed.

Lemma datasheets_loop_concat text ds pagess textss :
  Forall2 (λ d pages, PdfReader d = Ok pages) ds pagess →
  Forall2 (Forall2 (λ page t, extract_text page = Ok t)) pagess textss →
  datasheets_loop PdfReader extract_text text ds
  = Ok (text +:+ join "" (concat textss)).
Proof.
  intros Hd. revert text textss.
  induction Hd as [|d pages ds pagess Hr _ IH]; intros text textss Ht.
  - inversion Ht; subst. by rewrite append_nil_r.
  - inversion Ht as [|? texts ? textss' Hp Hrest]; subst.
    cbn [datasheets_loop concat].
    rewrite Hr, (pages_loop_concat _ _ _ Hp), (IH _ _ Hrest).
    by rewrite join_empty_app, append_assoc.
Qed.

(** C6.  When every datasheet is read and every page yields its text,
    [get_datasheets_text] returns the page texts concatenated in the order
    of the datasheets and, within a datasheet, of its pages, with nothing
    between them; pages without text add nothing, so the result is also
    the concatenation of the non-empty page texts. *)
Theorem get_datasheets_text_concatenates ds pagess textss :
  Forall2 (λ d pages, PdfReader d = Ok pages) ds pagess →
  Forall2 (Forall2 (λ page t, extract_text page = Ok t)) pagess textss →
  get_datasheets_text PdfReader extract_text ds
  = Ok (join "" (concat textss))
  ∧ get_datasheets_text PdfReader extract_text ds
    = Ok (join "" (filter (λ t, t ≠ "") (concat textss))).
Proof.
  intros Hd Ht. rewrite join_empty_filter. split;
    exact (datasheets_loop_concat "" _ _ _ Hd Ht).
Qed.

(** *** The question box *)

Lemma main_empty_question ui w :
  user_question ui = "" →
  main ui w
  = match (if process ui then process_datasheets (datasheets ui)
           else mret ()) (init_state w) with
    | (Ok _, w') => (Ok [], w')
    | (Raise e, w') => (Raise e, w')
    end.
Proof.
  intros Hq. rewrite main_init. unfold main_body, question_part.
  rewrite Hq. rewrite decide_True by done. run.
  by destruct (process ui);
    [destruct (process_datasheets _ _) as [[]]|].
Qed.

(** C10.  A run of [main] with an empty question does not enter the
    question handler: no query is embedded and nothing is generated, the
    objects on the heap (the conversation and its message list among
    them) stay as they are, and the [chat_history] entry keeps its value.
    When [Process] is not pressed either, nothing changes at all beyond
    the creation of missing session keys. *)
Theorem empty_question_is_ignored ui w :
  user_question ui = "" →
  question_part "" w = (Ok [], w)
  ∧ Forall (λ c, is_ask_call c = false) (new_calls w (main ui w).2)
  ∧ (∃ new, heap (main ui w).2 = heap w ++ new)
  ∧ (∀ v, session_state w !! "chat_history" = Some v →
          session_state (main ui w).2 !! "chat_history" = Some v)
  ∧ (process ui = false →
     heap (main ui w).2 = heap w
     ∧ calls (main ui w).2 = calls w
     ∧ (∀ key v, session_state w !! key = Some v →
                 session_state (main ui w).2 !! key = Some v)
     ∧ (initialised w → main ui w = (Ok [], w))).
Proof.
  intros Hq. split; [done|].
  rewrite (main_empty_question _ _ Hq).
  destruct (process ui) eqn:Hp.
  - pose proof (process_datasheets_calls (datasheets ui) (init_state w))
      as (new & Hnew & Hask).
    rewrite init_state_calls in Hnew.
    destruct (process_datasheets (datasheets ui) (init_state w))
      as [[u|e] w'] eqn:Hrun; simpl in *.
    + apply process_datasheets_ok in Hrun
        as (raw & chunks & embeddings & _ & _ & _ & _ & Hh & Hs & _).
      rewrite init_state_heap in Hh.
      split; [by rewrite (new_calls_app _ _ _ Hnew)|].
      split; [eauto|]. split; [|done].
      intros v Hv. rewrite Hs, lookup_insert_ne by done.
      by apply init_state_lookup.
    + apply process_datasheets_raise in Hrun as [Hh Hs].
      rewrite init_state_heap in Hh.
      split; [by rewrite (new_calls_app _ _ _ Hnew)|].
      split; [exists []; by rewrite app_nil_r|]. split; [|done].
      intros v Hv. rewrite Hs. by apply init_state_lookup.
  - unfold new_calls. run. rewrite init_state_heap, init_state_calls.
    split; [rewrite drop_all; constructor|].
    split; [exists []; by rewrite app_nil_r|].
    split; [intros v; apply init_state_lookup|]. intros _.
    split; [done|]. split; [done|].
    split; [intros key v; apply init_state_lookup|].
    intros Hi. by rewrite init_state_initialised.
Qed.

(** *** Sessions across runs *)

Lemma main_body_run ui w :
  main_body ui w
  = match question_part (user_question ui) w with
    | (Ok shown, w1) =>
        if process ui then
          match process_datasheets (datasheets ui) w1 with
          | (Ok _, w2) => (Ok shown, w2)
          | (Raise e, w2) => (Raise e, w2)
          end
        else (Ok shown, w1)
    | (Raise e, w1) => (Raise e, w1)
    end.
Proof.
  unfold main_body. run.
  destruct (question_part (user_question ui) w) as [[shown|e] w1]; [|done].
  destruct (process ui); [|done].
  by destruct (process_datasheets (datasheets ui) w1) as [[u|e] w2].
Qed.

Lemma init_state_session_ready w :
  session_ready w → session_ready (init_state w).
Proof.
  intros (l & Hc & Hr). exists l. rewrite init_state_heap.
  split; [by apply init_state_lookup|done].
Qed.

Lemma handle_userinput_session_ready question w :
  session_ready w → session_ready (handle_userinput question w).2.
Proof.
  intros (l & Hc & Hr).
  pose proof (monotone_handle_userinput question w) as Hev.
  destruct (handle_userinput question w) as [[shown|e] w'] eqn:Hrun;
    simpl in *.
  - apply handle_userinput_ok in Hrun
      as (l0 & vs & memory & h & answer & w1 & _ & _ & _ & _ & _ & Hs & _).
    exists l. rewrite Hs, lookup_insert_ne by done.
    split; [done|by eapply evolves_chain_ready].
  - apply handle_userinput_raise in Hrun as [Hh Hs].
    exists l. by rewrite Hh, Hs.
Qed.

Lemma question_part_session_ready question w :
  session_ready w → session_ready (question_part question w).2.
Proof.
  unfold question_part. destruct (decide (question = "")); [done|].
  apply handle_userinput_session_ready.
Qed.

(** A successful [process_datasheets] installs a session made of three
    new objects, with an empty message list. *)
Lemma process_datasheets_new_session ds w u w' :
  process_datasheets ds w = (Ok u, w') →
  ∃ l vectorstore memory texts vectors,
    session_state w' !! "conversation" = Some (Ref l)
    ∧ (length (heap w) ≤ l)%nat
    ∧ (length (heap w) ≤ vectorstore)%nat
    ∧ (length (heap w) ≤ memory)%nat
    ∧ heap w' !! l = Some (Chain vectorstore memory)
    ∧ heap w' !! vectorstore = Some (FAISS texts vectors)
    ∧ heap w' !! memory = Some (Messages []).
Proof.
  intros Hrun. apply process_datasheets_ok in Hrun
    as (raw & chunks & embeddings & _ & _ & _ & _ & Hh & Hs & _).
  exists (S (S (length (heap w)))), (length (heap w)),
    (S (length (heap w))), chunks, embeddings.
  rewrite Hs, Hh, lookup_insert_eq.
  repeat split; try lia.
  - rewrite lookup_app_r by lia.
    by replace (S (S (length (heap w))) - length (heap w))%nat
      with 2%nat by lia.
  - rewrite lookup_app_r by lia. by rewrite Nat.sub_diag.
  - rewrite lookup_app_r by lia.
    by replace (S (length (heap w)) - length (heap w))%nat
      with 1%nat by lia.
Qed.

Lemma process_datasheets_session_ready ds w :
  session_ready w → session_ready (process_datasheets ds w).2.
Proof.
  intros (l & Hc & Hr).
  destruct (process_datasheets ds w) as [[u|e] w'] eqn:Hrun; simpl.
  - apply process_datasheets_new_session in Hrun
      as (l' & vs & memory & texts & vectors & Hc' & _ & _ & _ & Hl & Hvs
          & Hm).
    exists l'. split; [done|]. by exists vs, memory, texts, vectors, [].
  - apply process_datasheets_raise in Hrun as [Hh Hs].
    exists l. by rewrite Hh, Hs.
Qed.

Lemma main_session_ready ui w :
  session_ready w → session_ready (main ui w).2.
Proof.
  intros Hr%init_state_session_ready. rewrite main_init, main_body_run.
  apply (question_part_session_ready (user_question ui)) in Hr.
  destruct (question_part _ _) as [[shown|e] w1]; simpl in Hr; [|done].
  destruct (process ui); [|done].
  apply (process_datasheets_session_ready (datasheets ui)) in Hr.
  by destruct (process_datasheets _ w1) as [[u|e] w2].
Qed.

Lemma monotone_question_part question : monotone (question_part question).
Proof. unfold question_part. mono. Qed.

Lemma question_part_conversation question w v :
  session_state w !! "conversation" = Some v →
  session_state (question_part question w).2 !! "conversation" = Some v.
Proof.
  intros Hc. unfold question_part.
  destruct (decide (question = "")); [done|].
  destruct (handle_userinput question w) as [[shown|e] w'] eqn:Hrun; simpl.
  - apply handle_userinput_ok in Hrun
      as (l0 & vs & memory & h & answer & w1 & _ & _ & _ & _ & _ & Hs & _).
    by rewrite Hs, lookup_insert_ne.
  - apply handle_userinput_raise in Hrun as [_ Hs]. by rewrite Hs.
Qed.

(** When the datasheets are read and the backend returns a first vector,
    [process_datasheets] returns, and this is the world it leaves. *)
Lemma process_datasheets_succeeds ds w raw_text text_chunks v vectors :
  get_datasheets_text PdfReader extract_text ds = Ok raw_text →
  get_text_chunks raw_text = Ok text_chunks →
  embed_documents (calls w) text_chunks = Ok (v :: vectors) →
  process_datasheets ds w
  = (Ok (),
     {| heap := heap w ++ [FAISS text_chunks (v :: vectors); Messages [];
                           Chain (length (heap w)) (S (length (heap w)))];
        session_state :=
          <["conversation" := Ref (S (S (length (heap w))))]>
            (session_state w);
        calls := calls w ++ [EmbedDocuments text_chunks] |}).
Proof.
  intros Hraw Hchunks He.
  unfold process_datasheets, get_vectorstore, get_conversation_chain. run.
  rewrite Hraw, Hchunks, He. cbn [heap session_state calls].
  rewrite !length_app. cbn [length].
  rewrite !Nat.add_1_r, <-!app_assoc. done.
Qed.

Lemma main_process_succeeds ui w raw_text text_chunks v vectors :
  user_question ui = "" →
  process ui = true →
  get_datasheets_text PdfReader extract_text (datasheets ui) = Ok raw_text →
  get_text_chunks raw_text = Ok text_chunks →
  embed_documents (calls w) text_chunks = Ok (v :: vectors) →
  main ui w
  = (Ok [],
     {| heap := heap w ++ [FAISS text_chunks (v :: vectors); Messages [];
                           Chain (length (heap w)) (S (length (heap w)))];
        session_state :=
          <["conversation" := Ref (S (S (length (heap w))))]>
            (session_state (init_state w));
        calls := calls w ++ [EmbedDocuments text_chunks] |}).
Proof.
  intros Hq Hp Hraw Hchunks He.
  rewrite (main_empty_question _ _ Hq), Hp.
  rewrite (process_datasheets_succeeds _ _ _ _ v vectors Hraw Hchunks)
    by (by rewrite init_state_calls).
  by rewrite init_state_heap, init_state_calls.
Qed.

Lemma new_session_ready (h : list obj) (s : gmap string value) c texts
    vectors :
  session_ready
    {| heap := h ++ [FAISS texts vectors; Messages [];
                     Chain (length h) (S (length h))];
       session_state := <["conversation" := Ref (S (S (length h)))]> s;
       calls := c |}.
Proof.
  exists (S (S (length h))). cbn [heap session_state].
  split; [apply lookup_insert_eq|].
  exists (length h), (S (length h)), texts, vectors, [].
  repeat split.
  - rewrite lookup_app_r by lia.
    by replace (S (S (length h)) - length h)%nat with 2%nat by lia.
  - rewrite lookup_app_r by lia. by rewrite Nat.sub_diag.
  - rewrite lookup_app_r by lia.
    by replace (S (length h) - length h)%nat with 1%nat by lia.
Qed.

(** C5.  While [conversation] is [None] every call of the question
    handler is rejected: calling [None] raises [TypeError] and the world
    is as before.  A run of [main] that processes datasheets which can be
    read, with an embedding backend that returns a first vector, returns
    and leaves a chain with its store and memory in [conversation],
    whatever was there before; so does every run in which [Process]
    succeeds.  From then on every run of [main] and every question leaves
    such a chain there, and a chain that is in place stays in place. *)
Theorem uninitialised_rejects_ready_stays ui w question :
  (session_state w !! "conversation" = Some PyNone →
   handle_userinput question w = (Raise TypeError, w))
  ∧ (user_question ui = "" → process ui = true →
     ∀ raw_text text_chunks v vectors,
       get_datasheets_text PdfReader extract_text (datasheets ui)
       = Ok raw_text →
       get_text_chunks raw_text = Ok text_chunks →
       embed_documents (calls w) text_chunks = Ok (v :: vectors) →
       (main ui w).1 = Ok [] ∧ session_ready (main ui w).2)
  ∧ (process ui = true → is_ok (main ui w).1 = true →
     session_ready (main ui w).2)
  ∧ (session_ready w → session_ready (main ui w).2)
  ∧ (session_ready w → session_ready (handle_userinput question w).2)
  ∧ (∀ l, chain_ready (heap w) l → chain_ready (heap (main ui w).2) l).
Proof.
  split; [|split; [|split; [|split; [|split]]]].
  - intros Hc. unfold handle_userinput, call_conversation. run.
    rewrite Hc. by run.
  - intros Hq Hp raw chunks v vectors Hraw Hchunks He.
    rewrite (main_process_succeeds _ _ _ _ _ _ Hq Hp Hraw Hchunks He).
    split; [done|]. apply new_session_ready.
  - intros Hp. rewrite main_init, main_body_run, Hp.
    destruct (question_part _ _) as [[shown|e] w1]; [|done].
    destruct (process_datasheets _ w1) as [[u|e] w2] eqn:Hrun; [|done].
    intros _. simpl.
    apply process_datasheets_new_session in Hrun
      as (l' & vs & memory & texts & vectors & Hc' & _ & _ & _ & Hl & Hvs
          & Hm).
    exists l'. split; [done|]. by exists vs, memory, texts, vectors, [].
  - apply main_session_ready.
  - apply handle_userinput_session_ready.
  - intros l. apply evolves_chain_ready, monotone_main.
Qed.

(** C8.  When the question handler raises, the error is what [main]
    raises, and the heap (so the message list of every memory) and the
    session state are as they were before the call; a session that was in
    place is still in place for the next question. *)
Theorem failed_ask_keeps_history ui question w e w' :
  handle_userinput question w = (Raise e, w') →
  heap w' = heap w
  ∧ session_state w' = session_state w
  ∧ (session_ready w → session_ready w')
  ∧ (user_question ui = question → question ≠ "" → initialised w →
     main ui w = (Raise e, w')).
Proof.
  intros Hrun.
  destruct (handle_userinput_raise _ _ _ _ Hrun) as [Hh Hs].
  split; [done|]. split; [done|]. split.
  - intros (l & Hc & Hr). exists l. by rewrite Hh, Hs.
  - intros Hq Hne Hi.
    rewrite main_init, init_state_initialised, main_body_run by done.
    unfold question_part. rewrite Hq, decide_False by done.
    by rewrite Hrun.
Qed.

(** C9.  Whatever a run of [main] does, a chain that exists keeps its
    store and its memory, and the store keeps its texts and vectors.  A
    run of [main] that only processes, over datasheets that can be read and
    with an embedding backend that returns a first vector, returns with this
    world: the heap as it was, followed by a new store holding the chunks
    and their vectors, a new and empty message list and a new chain over
    the two, the chain put into [conversation].  Every run in which
    [Process] succeeds puts into [conversation] a chain that did not exist
    before, over a store and a message list that did not exist before, the
    message list empty; and [process_datasheets] only adds objects to the
    heap. *)
Theorem session_is_replaced_not_mutated ui w l vectorstore memory texts
    vectors :
  heap w !! l = Some (Chain vectorstore memory) →
  heap w !! vectorstore = Some (FAISS texts vectors) →
  heap (main ui w).2 !! l = Some (Chain vectorstore memory)
  ∧ heap (main ui w).2 !! vectorstore = Some (FAISS texts vectors)
  ∧ (user_question ui = "" → process ui = true → initialised w →
     ∀ raw_text text_chunks v embeddings,
       get_datasheets_text PdfReader extract_text (datasheets ui)
       = Ok raw_text →
       get_text_chunks raw_text = Ok text_chunks →
       embed_documents (calls w) text_chunks = Ok (v :: embeddings) →
       main ui w
       = (Ok [],
          {| heap :=
               heap w ++ [FAISS text_chunks (v :: embeddings); Messages [];
                          Chain (length (heap w)) (S (length (heap w)))];
             session_state :=
               <["conversation" := Ref (S (S (length (heap w))))]>
                 (session_state w);
             calls := calls w ++ [EmbedDocuments text_chunks] |}))
  ∧ (process ui = true → is_ok (main ui w).1 = true →
     ∃ l' vectorstore' memory' texts' vectors',
       session_state (main ui w).2 !! "conversation" = Some (Ref l')
       ∧ (length (heap w) ≤ l')%nat
       ∧ (length (heap w) ≤ vectorstore')%nat
       ∧ (length (heap w) ≤ memory')%nat
       ∧ heap (main ui w).2 !! l' = Some (Chain vectorstore' memory')
       ∧ heap (main ui w).2 !! vectorstore' = Some (FAISS texts' vectors')
       ∧ heap (main ui w).2 !! memory' = Some (Messages []))
  ∧ (∀ ds, ∃ new, heap (process_datasheets ds w).2 = heap w ++ new).
Proof.
  intros Hl Hvs.
  destruct (monotone_main ui w) as (_ & Hobj & _).
  split; [exact (Hobj _ _ Hl)|]. split; [exact (Hobj _ _ Hvs)|].
  split; [|split].
  - intros Hq Hp Hi raw chunks v embeddings Hraw Hchunks He.
    rewrite (main_process_succeeds _ _ _ _ _ _ Hq Hp Hraw Hchunks He).
    by rewrite init_state_initialised.
  - intros Hp. rewrite main_init, main_body_run, Hp.
    destruct (monotone_question_part (user_question ui) (init_state w))
      as (Hlen & _). rewrite init_state_heap in Hlen.
    destruct (question_part _ _) as [[shown|e] w1]; [|done].
    destruct (process_datasheets _ w1) as [[u|e] w2] eqn:Hrun; [|done].
    intros _. simpl in *.
    apply process_datasheets_new_session in Hrun
      as (l' & vs' & memory' & texts' & vectors' & Hc' & ? & ? & ? & Hl'
          & Hvs' & Hm').
    exists l', vs', memory', texts', vectors'.
    repeat split; try done; lia.
  - intros ds.
    destruct (process_datasheets ds w) as [[u|e] w'] eqn:Hrun; simpl.
    + apply process_datasheets_ok in Hrun
        as (raw & chunks & embeddings & _ & _ & _ & _ & Hh & _). eauto.
    + apply process_datasheets_raise in Hrun as [Hh _].
      exists []. by rewrite app_nil_r.
Qed.

(** *** No documents *)

Lemma get_vectorstore_nil w :
  (∀ log texts vectors,
     embed_documents log texts = Ok vectors →
     length vectors = length texts) →
  ∃ e, get_vectorstore [] w
       = (Raise e, with_calls (calls w ++ [EmbedDocuments []]) w)
       ∧ (embed_documents (calls w) [] = Ok [] → e = IndexError).
Proof.
  intros Hlen. unfold get_vectorstore. run.
  destruct (embed_documents (calls w) []) as [[|v vectors]|e] eqn:He.
  - by exists IndexError.
  - by apply Hlen in He.
  - by exists e.
Qed.

Lemma process_datasheets_nil w :
  (∀ log texts vectors,
     embed_documents log texts = Ok vectors →
     length vectors = length texts) →
  ∃ e, (process_datasheets [] w).1 = Raise e.
Proof.
  intros Hlen.
  destruct (process_datasheets [] w) as [[u|e] w'] eqn:Hrun; [|by exists e].
  apply process_datasheets_ok in Hrun
    as (raw & chunks & embeddings & Hraw & Hchunks & He & Hne & _).
  injection Hraw as <-. vm_compute in Hchunks. injection Hchunks as <-.
  apply Hlen in He. by destruct embeddings.
Qed.

(** C4.  With an embedding backend that returns one vector per text:
    no datasheets give the empty text, the empty text gives no chunks, and
    [get_vectorstore] on no chunks raises ([IndexError] when the backend
    answers, since there is no first embedding).  A run of [main] that
    processes no datasheets therefore raises, [conversation] keeps the
    value it had, and a session that was in place is still in place. *)
Theorem zero_documents_create_no_session ui w :
  (∀ log texts vectors,
     embed_documents log texts = Ok vectors →
     length vectors = length texts) →
  process ui = true →
  datasheets ui = [] →
  get_datasheets_text PdfReader extract_text [] = Ok ""
  ∧ get_text_chunks "" = Ok []
  ∧ (∃ e, get_vectorstore [] w
          = (Raise e, with_calls (calls w ++ [EmbedDocuments []]) w)
          ∧ (embed_documents (calls w) [] = Ok [] → e = IndexError))
  ∧ (∃ e, (main ui w).1 = Raise e)
  ∧ (∀ v, session_state w !! "conversation" = Some v →
          session_state (main ui w).2 !! "conversation" = Some v)
  ∧ (session_ready w → session_ready (main ui w).2).
Proof.
  intros Hlen Hp Hds.
  split; [done|]. split; [done|]. split; [by apply get_vectorstore_nil|].
  split; [|split; [|apply main_session_ready]].
  - rewrite main_init, main_body_run, Hp, Hds.
    destruct (question_part _ _) as [[shown|e] w1]; [|by exists e].
    destruct (process_datasheets_nil w1 Hlen) as [e He].
    destruct (process_datasheets [] w1) as [[u|e'] w2]; [done|by exists e'].
  - intros v Hv%init_state_lookup.
    apply (question_part_conversation (user_question ui)) in Hv.
    rewrite main_init, main_body_run, Hp, Hds.
    destruct (question_part _ _) as [[shown|e] w1]; simpl in Hv; [|done].
    destruct (process_datasheets_nil w1 Hlen) as [e He].
    destruct (process_datasheets [] w1) as [[u|e'] w2] eqn:Hrun; [done|].
    apply process_datasheets_raise in Hrun as [_ Hs]. simpl.
    by rewrite Hs.
Qed.

(** *** Turns and the retrieval query *)

(** With a history, the chain first asks the model for a standalone
    question. *)
Lemma chain_call_with_history vectorstore chat_history question w :
  chat_history ≠ [] →
  chain_call vectorstore chat_history question w
  = (new_question ← generate (format CONDENSE_QUESTION_PROMPT
                                (get_chat_history chat_history) question);
     docs ← similarity_search vectorstore new_question;
     generate (format QA_PROMPT (join (newline +:+ newline) docs)
                 new_question)) w.
Proof.
  intros Hne. unfold chain_call. rewrite retrieve_with_history by done.
  run. destruct (llm (calls w) _) as [nq|e]; [|done].
  by destruct (similarity_search vectorstore nq _) as [[docs|e] w1].
Qed.

Lemma chain_call_condense_first vectorstore chat_history question w :
  chat_history ≠ [] →
  ∃ rest,
    calls (chain_call vectorstore chat_history question w).2
    = calls w ++ Generate (format CONDENSE_QUESTION_PROMPT
                             (get_chat_history chat_history) question)
                 :: rest.
Proof.
  intros Hne. rewrite chain_call_with_history by done.
  unfold mbind at 1, M_bind at 1. unfold generate at 1, remote.
  destruct (llm (calls w) _) as [nq|e]; simpl; [|by exists []].
  match goal with
  | |- context [mbind ?f ?m ?w0] =>
      assert (monotone (mbind f m)) as Hmono;
        [|destruct (Hmono w0) as (_ & _ & [new Hnew])]
  end.
  { unfold similarity_search, generate. mono. }
  exists new. rewrite Hnew. simpl. by rewrite <-app_assoc.
Qed.

(** C7.  Two successful calls of the question handler in a row: the
    message list of the session's memory grows by the first question and
    answer and then by the second question and answer, in that order; the
    second call shows them all; and the first prompt that the second call
    sends to the model is the condense prompt over the history, in which
    the first question and the first answer occur as they are. *)
Theorem two_asks_append_two_turns q1 q2 w shown1 w1 shown2 w2 :
  handle_userinput q1 w = (Ok shown1, w1) →
  handle_userinput q2 w1 = (Ok shown2, w2) →
  ∃ memory history a1 a2 prompt rest,
    heap w !! memory = Some (Messages history)
    ∧ heap w1 !! memory
      = Some (Messages (history ++ [HumanMessage q1; AIMessage a1]))
    ∧ heap w2 !! memory
      = Some (Messages (history ++ [HumanMessage q1; AIMessage a1;
                                    HumanMessage q2; AIMessage a2]))
    ∧ session_state w2 !! "chat_history" = Some (Ref memory)
    ∧ shown2 = render (history ++ [HumanMessage q1; AIMessage a1;
                                   HumanMessage q2; AIMessage a2])
    ∧ new_calls w1 w2 = Generate prompt :: rest
    ∧ prompt = format CONDENSE_QUESTION_PROMPT
                 (get_chat_history
                    (history ++ [HumanMessage q1; AIMessage a1])) q2
    ∧ occurs_in ("Human: " +:+ q1) prompt
    ∧ occurs_in ("Assistant: " +:+ a1) prompt.
Proof.
  intros Hrun1 Hrun2.
  apply handle_userinput_ok in Hrun1
    as (l & vs & memory & h & a1 & w1' & Hc & Hl & Hm & _ & Hh1 & Hs1
        & _ & _).
  assert (Hne : l ≠ memory) by congruence.
  assert (Hm1 : heap w1 !! memory
                = Some (Messages (h ++ [HumanMessage q1; AIMessage a1]))).
  { rewrite Hh1. apply list_lookup_insert_eq. by eapply lookup_lt_Some. }
  assert (Hl1 : heap w1 !! l = Some (Chain vs memory)).
  { by rewrite Hh1, list_lookup_insert_ne. }
  assert (Hc1 : session_state w1 !! "conversation" = Some (Ref l)).
  { by rewrite Hs1, lookup_insert_ne. }
  apply handle_userinput_ok in Hrun2
    as (l2 & vs2 & memory2 & h2 & a2 & w2' & Hc2 & Hl2 & Hm2 & Hcall2
        & Hh2 & Hs2 & Hlog2 & ->).
  assert (l2 = l) as -> by congruence.
  assert (memory2 = memory) as -> by congruence.
  assert (h2 = h ++ [HumanMessage q1; AIMessage a1]) as -> by congruence.
  destruct (chain_call_condense_first vs2
              (h ++ [HumanMessage q1; AIMessage a1]) q2 w1)
    as [rest Hrest].
  { by destruct h. }
  rewrite Hcall2 in Hrest. simpl in Hrest. rewrite <-Hlog2 in Hrest.
  eexists memory, h, a1, a2, _, rest.
  split; [done|]. split; [done|]. split.
  { rewrite Hh2, <-app_assoc. apply list_lookup_insert_eq.
    by eapply lookup_lt_Some. }
  split; [by rewrite Hs2, lookup_insert_eq|].
  split; [by rewrite <-app_assoc|].
  split; [by apply new_calls_app|]. split; [done|].
  unfold format.
  rewrite get_chat_history_app, !get_chat_history_cons.
  change (role_prefix (HumanMessage q1)) with "Human: ".
  change (role_prefix (AIMessage a1)) with "Assistant: ".
  change (content (HumanMessage q1)) with q1.
  change (content (AIMessage a1)) with a1.
  change (get_chat_history []) with "". rewrite append_nil_r.
  split.
  - exists (before CONDENSE_QUESTION_PROMPT +:+ get_chat_history h
            +:+ newline),
      (newline +:+ "Assistant: " +:+ a1
       +:+ between CONDENSE_QUESTION_PROMPT +:+ q2
       +:+ after CONDENSE_QUESTION_PROMPT).
    by rewrite !append_assoc.
  - exists (before CONDENSE_QUESTION_PROMPT +:+ get_chat_history h
            +:+ newline +:+ "Human: " +:+ q1 +:+ newline),
      (between CONDENSE_QUESTION_PROMPT +:+ q2
       +:+ after CONDENSE_QUESTION_PROMPT).
    by rewrite !append_assoc.
Qed.

Lemma handle_userinput_calls question w l vectorstore memory chat_history :
  session_state w !! "conversation" = Some (Ref l) →
  heap w !! l = Some (Chain vectorstore memory) →
  heap w !! memory = Some (Messages chat_history) →
  calls (handle_userinput question w).2
  = calls (chain_call vectorstore chat_history question w).2.
Proof.
  intros Hc Hl Hm. rewrite (handle_userinput_run _ _ _ _ _ _ Hc Hl Hm).
  by destruct (chain_call _ _ _ _) as [[answer|e] w1].
Qed.

(** C1, as the code has it.  In a session that is in place, a question
    asked over an empty history is itself the retrieval query.  Over a
    history, the retrieval query is the standalone question that the model
    returns for the condense prompt built from the history and the
    question, and nothing is retrieved when that call fails.  No other
    query is embedded during the call. *)
Theorem retrieval_query_of_ask question w l vectorstore memory texts
    vectors chat_history :
  session_state w !! "conversation" = Some (Ref l) →
  heap w !! l = Some (Chain vectorstore memory) →
  heap w !! vectorstore = Some (FAISS texts vectors) →
  heap w !! memory = Some (Messages chat_history) →
  retrieval_queries (new_calls w (handle_userinput question w).2)
  = match chat_history with
    | [] => [question]
    | _ =>
        match llm (calls w)
                (format CONDENSE_QUESTION_PROMPT
                   (get_chat_history chat_history) question) with
        | Ok new_question => [new_question]
        | Raise _ => []
        end
    end.
Proof.
  intros Hc Hl Hvs Hm. unfold new_calls.
  rewrite (handle_userinput_calls _ _ _ _ _ _ Hc Hl Hm).
  rewrite (chain_call_run _ _ _ _ _ _ Hvs). cbv zeta.
  destruct chat_history as [|turn rest].
  - destruct (embed_query (calls w) question); simpl;
      rewrite <-?app_assoc, drop_app_length; done.
  - destruct (llm (calls w) _) as [nq|e]; simpl.
    + destruct (embed_query _ nq); simpl;
        rewrite <-?app_assoc, drop_app_length; done.
    + by rewrite drop_app_length.
Qed.

(** *** More on text extraction *)

Lemma pages_loop_shift text pages :
  pages_loop extract_text text pages
  = match pages_loop extract_text "" pages with
    | Ok t => Ok (text +:+ t)
    | Raise e => Raise e
    end.
Proof.
  revert text. induction pages as [|page rest IH]; intros text;
    cbn [pages_loop].
  - by rewrite append_nil_r.
  - destruct (extract_text page) as [t|e]; [|done].
    rewrite (IH (text +:+ t)), (IH ("" +:+ t)), append_nil_l.
    destruct (pages_loop extract_text "" rest); [|done].
    by rewrite append_assoc.
Qed.

Lemma datasheets_loop_shift text ds :
  datasheets_loop PdfReader extract_text text ds
  = match datasheets_loop PdfReader extract_text "" ds with
    | Ok t => Ok (text +:+ t)
    | Raise e => Raise e
    end.
Proof.
  revert text. induction ds as [|d rest IH]; intros text;
    cbn [datasheets_loop].
  - by rewrite append_nil_r.
  - destruct (PdfReader d) as [pages|e]; [|done].
    rewrite (pages_loop_shift text).
    destruct (pages_loop extract_text "" pages) as [t|e]; [|done].
    rewrite (IH (text +:+ t)), (IH t).
    destruct (datasheets_loop PdfReader extract_text "" rest); [|done].
    by rewrite append_assoc.
Qed.

Lemma datasheets_loop_app text ds1 ds2 :
  datasheets_loop PdfReader extract_text text (ds1 ++ ds2)
  = match datasheets_loop PdfReader extract_text text ds1 with
    | Ok text1 => datasheets_loop PdfReader extract_text text1 ds2
    | Raise e => Raise e
    end.
Proof.
  revert text. induction ds1 as [|d rest IH]; intros text; [done|].
  change ((d :: rest) ++ ds2) with (d :: (rest ++ ds2)).
  cbn [datasheets_loop].
  destruct (PdfReader d) as [pages|e]; [|done].
  destruct (pages_loop extract_text text pages) as [t|e]; [|done].
  apply IH.
Qed.

(** X1.  Uploading two batches together gives the text of the first
    followed by the text of the second; when a datasheet or a page of the
    first batch cannot be read its error is the result and the second batch
    is not looked at, and otherwise an error of the second batch is the
    result: the text read so far is not returned. *)
Theorem get_datasheets_text_app ds1 ds2 :
  get_datasheets_text PdfReader extract_text (ds1 ++ ds2)
  = match get_datasheets_text PdfReader extract_text ds1 with
    | Ok text1 =>
        match get_datasheets_text PdfReader extract_text ds2 with
        | Ok text2 => Ok (text1 +:+ text2)
        | Raise e => Raise e
        end
    | Raise e => Raise e
    end.
Proof.
  unfold get_datasheets_text. rewrite datasheets_loop_app.
  destruct (datasheets_loop PdfReader extract_text "" ds1) as [text1|e];
    [|done].
  apply datasheets_loop_shift.
Qed.

(** *** Runs of the script, one after the other *)

Lemma runs_evolves uis w : evolves w (runs uis w).
Proof.
  revert w. induction uis as [|ui rest IH]; intros w; cbn [runs].
  - apply evolves_refl.
  - eapply evolves_trans; [apply monotone_main|apply IH].
Qed.

(** X2.  Over any number of runs of the script, whatever was asked or
    processed and whatever failed: a message list keeps the messages it has
    and only gets new ones at its end, and a chain or a vector store that
    exists stays exactly as it is. *)
Theorem objects_over_runs uis w l o :
  heap w !! l = Some o →
  match o with
  | Messages messages =>
      ∃ new, heap (runs uis w) !! l = Some (Messages (messages ++ new))
  | _ => heap (runs uis w) !! l = Some o
  end.
Proof.
  intros Hl. destruct (runs_evolves uis w) as (_ & Hobj & _).
  exact (Hobj l o Hl).
Qed.

Lemma handle_userinput_none question w :
  session_uninitialised w →
  handle_userinput question w = (Raise TypeError, w).
Proof.
  intros Hc. unfold handle_userinput, call_conversation. run.
  rewrite Hc. by run.
Qed.

Lemma init_state_uninitialised w :
  session_state w !! "conversation" = None ∨ session_uninitialised w →
  session_uninitialised (init_state w).
Proof.
  unfold session_uninitialised, init_state. intros Hc.
  apply init_attr_lookup. rewrite init_attr_state.
  destruct Hc as [Hc|Hc]; rewrite Hc; simpl; [|done].
  apply lookup_insert_eq.
Qed.

Lemma main_body_uninitialised ui w :
  session_uninitialised w →
  session_uninitialised (main_body ui w).2 ∨ session_ready (main_body ui w).2.
Proof.
  intros Hu. rewrite main_body_run. unfold question_part.
  destruct (decide (user_question ui = "")) as [Hq|Hq];
    [|rewrite (handle_userinput_none _ _ Hu); by left].
  unfold mret, M_ret. destruct (process ui); [|by left].
  destruct (process_datasheets (datasheets ui) w) as [[u|e] w'] eqn:Hrun;
    simpl.
  - apply process_datasheets_new_session in Hrun
      as (l' & vs & memory & texts & vectors & Hc' & _ & _ & _ & Hl & Hvs
          & Hm).
    right. exists l'. split; [done|].
    by exists vs, memory, texts, vectors, [].
  - apply process_datasheets_raise in Hrun as [_ Hs].
    left. unfold session_uninitialised in *. by rewrite Hs.
Qed.

Lemma main_uninitialised_or_ready ui w :
  session_state w !! "conversation" = None
  ∨ session_uninitialised w ∨ session_ready w →
  session_uninitialised (main ui w).2 ∨ session_ready (main ui w).2.
Proof.
  intros [Hc|[Hc|Hr]]; [| |right; by apply main_session_ready].
  all: rewrite main_init; apply main_body_uninitialised,
         init_state_uninitialised; auto.
Qed.

(** X3.  Starting without a session, after any number of runs the app is
    in one of two states: [conversation] is [None], or it is a chain with
    its store and memory in place.  Once it is a chain it stays one. *)
Theorem uninitialised_or_ready_over_runs uis w :
  uis ≠ [] →
  session_state w !! "conversation" = None ∨ session_uninitialised w →
  (session_uninitialised (runs uis w) ∨ session_ready (runs uis w))
  ∧ ∀ more, session_ready (runs uis w) →
            session_ready (runs more (runs uis w)).
Proof.
  intros Hne Hc. split.
  - assert (Hstart : session_state w !! "conversation" = None
                     ∨ session_uninitialised w ∨ session_ready w)
      by (destruct Hc; auto).
    clear Hc. revert w Hstart.
    induction uis as [|ui rest IH]; intros w Hstart; [done|].
    cbn [runs].
    pose proof (main_uninitialised_or_ready ui w Hstart) as Hnext.
    destruct rest as [|ui' rest]; [exact Hnext|].
    apply IH; [done|]. destruct Hnext; auto.
  - intros more. generalize (runs uis w). clear.
    induction more as [|ui rest IH]; intros w Hr; [done|].
    cbn [runs]. apply IH. by apply main_session_ready.
Qed.

Lemma is_Some_insert_keep (s : gmap string value) key key' v :
  is_Some (s !! key) → is_Some (<[key' := v]> s !! key).
Proof.
  intros Hs. destruct (decide (key' = key)) as [->|Hne].
  - rewrite lookup_insert_eq. eauto.
  - by rewrite lookup_insert_ne.
Qed.

Lemma question_part_other question w key :
  key ≠ "chat_history" →
  session_state (question_part question w).2 !! key = session_state w !! key.
Proof.
  intros Hk. unfold question_part.
  destruct (decide (question = "")); [done|].
  destruct (handle_userinput question w) as [[shown|e] w1] eqn:Hrun; simpl.
  - apply handle_userinput_ok in Hrun
      as (l0 & vs & memory & h & answer & w0 & _ & _ & _ & _ & _ & Hs & _).
    by rewrite Hs, lookup_insert_ne.
  - apply handle_userinput_raise in Hrun as [_ Hs]. by rewrite Hs.
Qed.

Lemma question_part_keys question w key :
  is_Some (session_state w !! key) →
  is_Some (session_state (question_part question w).2 !! key).
Proof.
  intros Hk. destruct (decide (key = "chat_history")) as [->|Hne];
    [|by rewrite question_part_other].
  unfold question_part. destruct (decide (question = "")); [done|].
  destruct (handle_userinput question w) as [[shown|e] w1] eqn:Hrun; simpl.
  - apply handle_userinput_ok in Hrun
      as (l0 & vs & memory & h & answer & w0 & _ & _ & _ & _ & _ & Hs & _).
    rewrite Hs. by apply is_Some_insert_keep.
  - apply handle_userinput_raise in Hrun as [_ Hs]. by rewrite Hs.
Qed.

Lemma process_datasheets_other ds w key :
  key ≠ "conversation" →
  session_state (process_datasheets ds w).2 !! key = session_state w !! key.
Proof.
  intros Hk.
  destruct (process_datasheets ds w) as [[u|e] w2] eqn:Hrun; simpl.
  - apply process_datasheets_ok in Hrun
      as (raw & chunks & embeddings & _ & _ & _ & _ & _ & Hs & _).
    by rewrite Hs, lookup_insert_ne.
  - apply process_datasheets_raise in Hrun as [_ Hs]. by rewrite Hs.
Qed.

Lemma process_datasheets_keys ds w key :
  is_Some (session_state w !! key) →
  is_Some (session_state (process_datasheets ds w).2 !! key).
Proof.
  intros Hk. destruct (decide (key = "conversation")) as [->|Hne];
    [|by rewrite process_datasheets_other].
  destruct (process_datasheets ds w) as [[u|e] w2] eqn:Hrun; simpl.
  - apply process_datasheets_ok in Hrun
      as (raw & chunks & embeddings & _ & _ & _ & _ & _ & Hs & _).
    rewrite Hs. by apply is_Some_insert_keep.
  - apply process_datasheets_raise in Hrun as [_ Hs]. by rewrite Hs.
Qed.

(** The session state at the end of [main_body]. *)
Lemma main_body_session_state ui w :
  session_state (main_body ui w).2
  = match (question_part (user_question ui) w).1 with
    | Ok _ =>
        if process ui
        then session_state
               (process_datasheets (datasheets ui)
                  (question_part (user_question ui) w).2).2
        else session_state (question_part (user_question ui) w).2
    | Raise _ => session_state (question_part (user_question ui) w).2
    end.
Proof.
  rewrite main_body_run.
  destruct (question_part (user_question ui) w) as [[shown|e] w1]; [|done].
  simpl. destruct (process ui); [|done].
  by destruct (process_datasheets (datasheets ui) w1) as [[u|e] w2].
Qed.

(** X4.  After a run of [main], however it ends, both session keys
    exist; a key that had a value before the run still has one, and was not
    reset when the keys were created; and no other key of the session state
    is touched. *)
Theorem main_creates_session_keys ui w :
  initialised (main ui w).2
  ∧ (∀ key, is_Some (session_state w !! key) →
            is_Some (session_state (main ui w).2 !! key))
  ∧ (∀ key v, session_state w !! key = Some v →
              session_state (init_state w) !! key = Some v)
  ∧ (∀ key, key ≠ "conversation" → key ≠ "chat_history" →
            session_state (main ui w).2 !! key = session_state w !! key).
Proof.
  assert (Hkeep : ∀ key, is_Some (session_state (init_state w) !! key) →
                         is_Some (session_state (main ui w).2 !! key)).
  { intros key Hk. rewrite main_init, main_body_session_state.
    apply (question_part_keys (user_question ui)) in Hk.
    destruct (question_part _ _).1; [|done].
    destruct (process ui); [|done]. by apply process_datasheets_keys. }
  split; [|split; [|split]].
  - destruct (init_state_is_initialised w) as [H1 H2].
    split; by apply Hkeep.
  - intros key [v Hv]. apply Hkeep. exists v. by apply init_state_lookup.
  - intros key v. apply init_state_lookup.
  - intros key Hk1 Hk2. rewrite main_init, main_body_session_state.
    assert (Hinit : session_state (init_state w) !! key
                    = session_state w !! key).
    { unfold init_state. rewrite !init_attr_state. simpl.
      repeat case_match; simpl; rewrite ?lookup_insert_ne; done. }
    rewrite <-Hinit, <-(question_part_other (user_question ui)) by done.
    destruct (question_part _ _).1; [|done].
    destruct (process ui); [|done]. by rewrite process_datasheets_other.
Qed.

(** *** What a successful question does *)

(** X5.  A successful question to a session that is in place makes two
    remote calls over an empty history (the question is embedded, then the
    model answers the prompt built from the retrieved texts and the
    question) and three over a history (the model first rephrases the
    question, and it is the rephrased question that is embedded and
    answered).  The turn that is saved pairs the answer with the question as
    the user typed it. *)
Theorem successful_question question w l vectorstore memory texts vectors
    chat_history shown w' :
  session_state w !! "conversation" = Some (Ref l) →
  heap w !! l = Some (Chain vectorstore memory) →
  heap w !! vectorstore = Some (FAISS texts vectors) →
  heap w !! memory = Some (Messages chat_history) →
  handle_userinput question w = (Ok shown, w') →
  ∃ new_question log v answer,
    match chat_history with
    | [] => new_question = question ∧ log = calls w
    | _ =>
        let cp := format CONDENSE_QUESTION_PROMPT
                    (get_chat_history chat_history) question in
        llm (calls w) cp = Ok new_question
        ∧ log = calls w ++ [Generate cp]
    end
    ∧ embed_query log new_question = Ok v
    ∧ llm (log ++ [EmbedQuery new_question])
        (format QA_PROMPT
           (join (newline +:+ newline) (index_search texts vectors v))
           new_question)
      = Ok answer
    ∧ calls w'
      = log ++ [EmbedQuery new_question;
                Generate
                  (format QA_PROMPT
                     (join (newline +:+ newline)
                        (index_search texts vectors v))
                     new_question)]
    ∧ heap w' !! memory
      = Some (Messages (chat_history
                        ++ [HumanMessage question; AIMessage answer])).
Proof.
  intros Hc Hl Hvs Hm Hrun.
  rewrite (handle_userinput_run _ _ _ _ _ _ Hc Hl Hm) in Hrun.
  rewrite (chain_call_run _ _ _ _ _ _ Hvs) in Hrun.
  cbv beta zeta in Hrun.
  assert (Hins : ∀ a, <[memory := Messages
                         (chat_history ++ [HumanMessage question;
                                           AIMessage a])]> (heap w)
                      !! memory
                      = Some (Messages (chat_history
                                        ++ [HumanMessage question;
                                            AIMessage a]))).
  { intros a. apply list_lookup_insert_eq. by eapply lookup_lt_Some. }
  destruct chat_history as [|turn rest].
  - destruct (embed_query (calls w) question) as [v|e] eqn:Hv; [|done].
    destruct (llm _ _) as [a|e] eqn:Ha; [|done].
    simplify_eq/=. exists question, (calls w), v, a.
    rewrite <-app_assoc. by rewrite Hins.
  - destruct (llm (calls w) _) as [nq|e] eqn:Hnq; [|done].
    destruct (embed_query _ nq) as [v|e] eqn:Hv; [|done].
    destruct (llm (_ ++ [EmbedQuery nq]) _) as [a|e] eqn:Ha; [|done].
    simplify_eq/=. eexists nq, _, v, a.
    split; [done|]. split; [done|]. split; [done|].
    rewrite <-app_assoc. split; [done|]. apply Hins.
Qed.

(** X6.  The first question after a successful [Process] is answered by
    the new session alone: it is embedded as typed (there is no history to
    rephrase it with), the page shows this question and its answer and
    nothing of the earlier conversation, and [chat_history] now refers to
    the message list of the new session. *)
Theorem first_question_after_processing ds w u w1 question shown w2 :
  process_datasheets ds w = (Ok u, w1) →
  handle_userinput question w1 = (Ok shown, w2) →
  ∃ answer,
    shown = [UserBubble question; BotBubble answer]
    ∧ retrieval_queries (new_calls w1 w2) = [question]
    ∧ session_state w2 !! "chat_history"
      = Some (Ref (S (length (heap w))))
    ∧ heap w2 !! S (length (heap w))
      = Some (Messages [HumanMessage question; AIMessage answer])
    ∧ ∀ l o, heap w !! l = Some o → heap w2 !! l = Some o.
Proof.
  intros Hp Hrun.
  apply process_datasheets_ok in Hp
    as (raw & chunks & embeddings & _ & _ & _ & _ & Hh & Hs & _).
  assert (Hc : session_state w1 !! "conversation"
               = Some (Ref (S (S (length (heap w)))))).
  { rewrite Hs. apply lookup_insert_eq. }
  assert (Hl : heap w1 !! S (S (length (heap w)))
               = Some (Chain (length (heap w)) (S (length (heap w))))).
  { rewrite Hh, lookup_app_r by lia.
    by replace (S (S (length (heap w))) - length (heap w))%nat
      with 2%nat by lia. }
  assert (Hvs : heap w1 !! length (heap w)
                = Some (FAISS chunks embeddings)).
  { rewrite Hh, lookup_app_r by lia. by rewrite Nat.sub_diag. }
  assert (Hm : heap w1 !! S (length (heap w)) = Some (Messages [])).
  { rewrite Hh, lookup_app_r by lia.
    by replace (S (length (heap w)) - length (heap w))%nat
      with 1%nat by lia. }
  rewrite (handle_userinput_run _ _ _ _ _ _ Hc Hl Hm) in Hrun.
  rewrite (chain_call_run _ _ _ _ _ _ Hvs) in Hrun.
  cbv beta zeta in Hrun.
  destruct (embed_query (calls w1) question) as [v|e]; [|done].
  destruct (llm _ _) as [a|e]; [|done].
  simplify_eq/=. exists a.
  split; [done|]. split.
  { unfold new_calls. simpl. by rewrite <-app_assoc, drop_app_length. }
  split; [apply lookup_insert_eq|]. split.
  { apply list_lookup_insert_eq. by eapply lookup_lt_Some. }
  intros l o Ho.
  rewrite list_lookup_insert_ne
    by (apply lookup_lt_Some in Ho; lia).
  rewrite Hh. by apply lookup_app_l_Some.
Qed.

(** *** Whole turns *)

Lemma turn_messages_snoc turns question answer :
  turn_messages (turns ++ [(question, answer)])
  = turn_messages turns ++ [HumanMessage question; AIMessage answer].
Proof. unfold turn_messages. by rewrite flat_map_app. Qed.

Lemma render_turn_messages turns :
  render (turn_messages turns) = turn_bubbles turns.
Proof.
  unfold render. induction turns as [|[q a] rest IH]; [done|].
  cbn [turn_messages turn_bubbles flat_map app fst snd].
  rewrite !imap_cons. cbn [Nat.even content].
  f_equal. f_equal.
  fold (turn_bubbles rest). fold (turn_messages rest).
  rewrite <-IH. by apply imap_ext.
Qed.

Lemma keeps_turns_bind {A B} (m : M A) (f : A → M B) :
  keeps_turns m → (∀ a, keeps_turns (f a)) → keeps_turns (m ≫= f).
Proof.
  intros Hm Hf w Hw. unfold mbind, M_bind. specialize (Hm w Hw).
  destruct (m w) as [[a|e] w1]; simpl in *; [|done]. by apply Hf.
Qed.

Lemma keeps_turns_heap {A} (m : M A) :
  (∀ w, heap (m w).2 = heap w) → keeps_turns m.
Proof. intros Hm w Hw. by rewrite Hm. Qed.

Lemma keeps_turns_alloc (o : obj) :
  (∀ messages, o = Messages messages → messages = []) →
  keeps_turns (alloc o).
Proof.
  intros Ho w Hw l messages. unfold alloc, with_heap; simpl.
  intros [Hl|[_ Hl]]%lookup_app_Some; [by eapply Hw|].
  apply list_lookup_singleton_Some in Hl as [_ ->].
  rewrite (Ho messages eq_refl). by exists [].
Qed.

Lemma keeps_turns_extend_messages memory question answer :
  keeps_turns (extend_messages memory
                 [HumanMessage question; AIMessage answer]).
Proof.
  intros w Hw. unfold extend_messages.
  destruct (heap w !! memory) as [[|messages|]|] eqn:Hm; try done.
  unfold with_heap; simpl. intros l messages' Hl.
  destruct (decide (l = memory)) as [->|Hne].
  - rewrite list_lookup_insert_eq in Hl by (by eapply lookup_lt_Some).
    destruct (Hw _ _ Hm) as [turns ->]. simplify_eq.
    exists (turns ++ [(question, answer)]). by rewrite turn_messages_snoc.
  - rewrite list_lookup_insert_ne in Hl by done. by eapply Hw.
Qed.

(** Splits a goal [keeps_turns m] along the binds and branches of [m]. *)
Ltac turns :=
  repeat first
    [ apply keeps_turns_extend_messages
    | apply keeps_turns_alloc; by intros ? [=]
    | apply keeps_turns_heap; intros ?; run;
      solve [done | by repeat case_match]
    | apply keeps_turns_bind; [|intros ?]
    | match goal with
      | |- keeps_turns (match ?x with _ => _ end) => destruct x
      | |- keeps_turns (if ?b then _ else _) => destruct b
      end ].

Lemma keeps_turns_chain_call vectorstore chat_history question :
  keeps_turns (chain_call vectorstore chat_history question).
Proof.
  apply keeps_turns_heap. intros w.
  apply (log_only_chain_call vectorstore chat_history question w).
Qed.

Lemma keeps_turns_call_conversation conversation question :
  keeps_turns (call_conversation conversation question).
Proof.
  unfold call_conversation.
  repeat first [ apply keeps_turns_chain_call | progress turns ].
Qed.

Lemma keeps_turns_main ui : keeps_turns (main ui).
Proof.
  unfold main, question_part, handle_userinput, process_datasheets,
    get_vectorstore, get_conversation_chain.
  repeat first [ apply keeps_turns_call_conversation | progress turns ].
Qed.

(** X7.  When every message list holds whole turns, as it does when the
    app starts, it still does after any number of runs: a question and its
    answer are only ever saved together, the question first. *)
Theorem whole_turns_over_runs uis w :
  whole_turns (heap w) → whole_turns (heap (runs uis w)).
Proof.
  revert w. induction uis as [|ui rest IH]; intros w Hw; [done|].
  cbn [runs]. by apply IH, keeps_turns_main.
Qed.

(** X8.  [handle_userinput] tells questions from answers by the parity of
    their position.  Over message lists of whole turns that is right: the
    memory of the session holds some turns before the call; what is shown
    after a successful question is each of these turns in order, the
    question as a user bubble followed by its answer as a bot bubble, and
    then the new question and its answer, which is also what the memory
    holds afterwards. *)
Theorem shown_conversation question w shown w' :
  whole_turns (heap w) →
  handle_userinput question w = (Ok shown, w') →
  ∃ l vectorstore memory turns answer,
    session_state w !! "conversation" = Some (Ref l)
    ∧ heap w !! l = Some (Chain vectorstore memory)
    ∧ heap w !! memory = Some (Messages (turn_messages turns))
    ∧ heap w' !! memory
      = Some (Messages (turn_messages (turns ++ [(question, answer)])))
    ∧ shown = turn_bubbles (turns ++ [(question, answer)]).
Proof.
  intros Hw Hrun.
  apply handle_userinput_ok in Hrun
    as (l & vs & memory & h & answer & w1 & Hc & Hl & Hm & _ & Hh & _ & _
        & ->).
  destruct (Hw _ _ Hm) as [turns ->].
  exists l, vs, memory, turns, answer.
  rewrite turn_messages_snoc.
  split; [done|]. split; [done|]. split; [done|]. split.
  - rewrite Hh. apply list_lookup_insert_eq. by eapply lookup_lt_Some.
  - by rewrite <-turn_messages_snoc, render_turn_messages.
Qed.

(** Where a failing [process_datasheets] fails. *)
Lemma process_datasheets_raise_cases ds w e w' :
  process_datasheets ds w = (Raise e, w') →
  (get_datasheets_text PdfReader extract_text ds = Raise e ∧ w' = w)
  ∨ (∃ raw_text,
       get_datasheets_text PdfReader extract_text ds = Ok raw_text
       ∧ get_text_chunks raw_text = Raise e ∧ w' = w)
  ∨ (∃ raw_text text_chunks,
       get_datasheets_text PdfReader extract_text ds = Ok raw_text
       ∧ get_text_chunks raw_text = Ok text_chunks
       ∧ w' = with_calls (calls w ++ [EmbedDocuments text_chunks]) w
       ∧ (embed_documents (calls w) text_chunks = Raise e
          ∨ embed_documents (calls w) text_chunks = Ok []
            ∧ e = IndexError)).
Proof.
  unfold process_datasheets, get_vectorstore, get_conversation_chain. run.
  intros H.
  destruct (get_datasheets_text PdfReader extract_text ds) as [raw|e1];
    [|left; by simplify_eq].
  right. destruct (get_text_chunks raw) as [chunks|e2] eqn:Hc;
    [|left; exists raw; by simplify_eq].
  right. exists raw, chunks.
  destruct (embed_documents (calls w) chunks) as [[|v vectors]|e3] eqn:He;
    simplify_eq/=; repeat split; auto.
Qed.

End Pipeline.

(** ** The pipeline on the concrete backends *)

#[local] Abbreviation demo_main :=
  (main Demo.PdfReader Demo.extract_text Demo.embed_documents
     Demo.embed_query Demo.index_search Demo.llm
     Demo.CONDENSE_QUESTION_PROMPT Demo.QA_PROMPT).
#[local] Abbreviation demo_ask :=
  (handle_userinput Demo.embed_query Demo.index_search Demo.llm
     Demo.CONDENSE_QUESTION_PROMPT Demo.QA_PROMPT).
#[local] Abbreviation demo_ask_down :=
  (handle_userinput Demo.embed_query Demo.index_search Demo.llm_down
     Demo.CONDENSE_QUESTION_PROMPT Demo.QA_PROMPT).
#[local] Abbreviation demo_retrieve :=
  (retrieve Demo.embed_query Demo.index_search Demo.llm
     Demo.CONDENSE_QUESTION_PROMPT).

Lemma demo_session_ready history : session_ready (Demo.session history).
Proof.
  exists 2%nat. split; [reflexivity|].
  by exists 0%nat, 1%nat, Demo.texts, Demo.texts, history.
Defined.

Lemma demo_embed_documents_length log texts vectors :
  Demo.embed_documents log texts = Ok vectors →
  length vectors = length texts.
Proof. intros H. injection H as <-. reflexivity. Defined.

(** C6 at two datasheets, the first with an empty page. *)
Lemma get_datasheets_text_concatenates_witness :
  get_datasheets_text Demo.PdfReader Demo.extract_text
    [["LM317 "; ""; "regulator"]; ["NE555"]]
  = Ok "LM317 regulatorNE555"
  ∧ get_datasheets_text Demo.PdfReader Demo.extract_text
      [["LM317 "; ""; "regulator"]; ["NE555"]]
    = Ok (join "" (filter (λ t, t ≠ "")
                     (concat [["LM317 "; ""; "regulator"]; ["NE555"]]))).
Proof.
  apply (get_datasheets_text_concatenates Demo.PdfReader Demo.extract_text
           [["LM317 "; ""; "regulator"]; ["NE555"]]
           [["LM317 "; ""; "regulator"]; ["NE555"]]
           [["LM317 "; ""; "regulator"]; ["NE555"]]);
    repeat constructor.
Defined.

(** ** The chunker in general *)

Section SplitterFacts.
Variable cfg : Splitter.config.
Hypothesis overlap_nonneg : 0 ≤ Splitter.chunk_overlap cfg.

#[local] Abbreviation sep := (Splitter.separator cfg).
#[local] Abbreviation size := (Splitter.chunk_size cfg).

Lemma len_append (s t : string) : len (s +:+ t) = len s + len t.
Proof. unfold len. rewrite length_append. lia. Qed.

Lemma len_nonneg (s : string) : 0 ≤ len s.
Proof. unfold len. lia. Qed.

Lemma join_cons_cons (d d' : string) (rest : list string) :
  join sep (d :: d' :: rest) = d +:+ sep +:+ join sep (d' :: rest).
Proof. reflexivity. Qed.

Lemma len_join_cons (d : string) (rest : list string) :
  len (join sep (d :: rest))
  = len d + Splitter.sep_if cfg (0 <? length rest)%nat + len (join sep rest).
Proof.
  destruct rest as [|d' rest].
  - change (join sep [d]) with d. change (len (join sep [])) with 0.
    unfold Splitter.sep_if. simpl. lia.
  - rewrite join_cons_cons, !len_append.
    unfold Splitter.sep_if, Splitter.separator_len. simpl. lia.
Qed.

Lemma len_join_snoc (current_doc : list string) (d : string) :
  len (join sep (current_doc ++ [d]))
  = len (join sep current_doc)
    + (len d + Splitter.sep_if cfg (1 <? length (current_doc ++ [d]))%nat).
Proof.
  induction current_doc as [|d0 rest IH].
  - unfold Splitter.sep_if. simpl. change (len "") with 0. lia.
  - change ((d0 :: rest) ++ [d]) with (d0 :: (rest ++ [d])).
    rewrite !len_join_cons, IH. cbn [length]. rewrite !length_app.
    cbn [length]. unfold Splitter.sep_if.
    replace (0 <? length rest + 1)%nat with true
      by (symmetry; apply Nat.ltb_lt; lia).
    replace (1 <? S (length rest + 1))%nat with true
      by (symmetry; apply Nat.ltb_lt; lia).
    destruct (Nat.ltb_spec 1 (length rest + 1)),
      (Nat.ltb_spec 0 (length rest)); lia.
Qed.

Lemma len_join_pos (current_doc : list string) :
  current_doc ≠ [] → Forall (λ d, 0 < len d) current_doc →
  0 < len (join sep current_doc).
Proof.
  destruct current_doc as [|d rest]; [done|]. intros _ Hpos.
  apply Forall_cons in Hpos as [Hd _]. rewrite len_join_cons.
  pose proof (len_nonneg (join sep rest)).
  unfold Splitter.sep_if, Splitter.separator_len.
  pose proof (len_nonneg sep). case_match; lia.
Qed.

Lemma len_lstrip (s : string) : len (Splitter.lstrip s) ≤ len s.
Proof.
  unfold len. induction s as [|c s IH]; simpl; [lia|].
  destruct (Splitter.isspace c); simpl; lia.
Qed.

Lemma len_rstrip (s : string) : len (Splitter.rstrip s) ≤ len s.
Proof.
  unfold len. induction s as [|c s IH]; simpl; [lia|].
  destruct (Splitter.rstrip s); [destruct (Splitter.isspace c)|];
    simpl in *; lia.
Qed.

Lemma len_strip (s : string) : len (Splitter.strip s) ≤ len s.
Proof.
  unfold Splitter.strip.
  pose proof (len_rstrip (Splitter.lstrip s)). pose proof (len_lstrip s). lia.
Qed.

(** Every chunk that is pushed is at most as long as the joined pieces. *)
Lemma push_doc_bounded (docs current_doc : list string) (bound : Z) :
  Forall (λ doc, len doc ≤ bound) docs →
  (current_doc ≠ [] → len (join sep current_doc) ≤ bound) →
  Forall (λ doc, len doc ≤ bound) (Splitter.push_doc cfg docs current_doc).
Proof.
  intros Hdocs Hcur. unfold Splitter.push_doc, Splitter.join_docs.
  case_decide as Hs; [done|].
  apply Forall_app. split; [done|]. apply Forall_singleton.
  pose proof (len_strip (join sep current_doc)).
  destruct current_doc as [|d rest]; [done|].
  specialize (Hcur ltac:(done)). lia.
Qed.

(** The inner loop ends without running off the list: [total] is the
    length of the joined pieces, so it is [0] once the list is empty. *)
Lemma pop_front_ok (_len : Z) (current_doc : list string) (total : Z) :
  total = len (join sep current_doc) →
  ∃ current_doc' total',
    Splitter.pop_front cfg _len current_doc total = Ok (current_doc', total')
    ∧ total' = len (join sep current_doc')
    ∧ Splitter.keep_popping cfg _len current_doc' total' = false
    ∧ (∀ P : string → Prop,
         Forall P current_doc → Forall P current_doc').
Proof.
  revert total. induction current_doc as [|d0 rest IH]; intros total Htotal.
  - exists [], total. simpl.
    assert (Hk : Splitter.keep_popping cfg _len [] total = false).
    { unfold Splitter.keep_popping. rewrite Htotal.
      change (len (join sep [])) with 0.
      apply orb_false_iff. split; [lia|]. apply andb_false_iff. right. lia. }
    by rewrite Hk.
  - cbn [Splitter.pop_front].
    destruct (Splitter.keep_popping cfg _len (d0 :: rest) total) eqn:Hk.
    + destruct (IH (total
                    - (len d0
                       + Splitter.sep_if cfg
                           (1 <? length (d0 :: rest))%nat)))
        as (cur' & total' & Hrun & Ht & Hstop & Hsub).
      { rewrite Htotal, len_join_cons. simpl.
        unfold Splitter.sep_if. destruct rest; simpl; lia. }
      exists cur', total'. repeat split; try done.
      intros P HP. apply Hsub. by apply Forall_cons in HP as [_ ?].
    + by exists (d0 :: rest), total.
Qed.

(** [_merge_splits] returns: the [IndexError] of [pop_front] is not
    reached. *)
Lemma merge_loop_total (splits docs current_doc : list string) (total : Z) :
  total = len (join sep current_doc) →
  ∃ docs', Splitter.merge_loop cfg splits docs current_doc total = Ok docs'.
Proof.
  revert docs current_doc total.
  induction splits as [|d rest IH]; intros docs current_doc total Htotal;
    cbn [Splitter.merge_loop]; [eauto|].
  cbv zeta.
  destruct (_ >? _); [destruct (0 <? length current_doc)%nat|].
  - destruct (pop_front_ok (len d) current_doc total Htotal)
      as (cur' & total' & -> & Ht & _).
    apply IH. rewrite len_join_snoc. lia.
  - apply IH. rewrite len_join_snoc. lia.
  - apply IH. rewrite len_join_snoc. lia.
Qed.

(** When no piece is longer than [chunk_size], no chunk is. *)
Lemma merge_loop_bounded (splits docs current_doc : list string) (total : Z) :
  Forall (λ d, 0 < len d ≤ size) splits →
  Forall (λ d, 0 < len d) current_doc →
  total = len (join sep current_doc) →
  (current_doc ≠ [] → total ≤ size) →
  Forall (λ doc, len doc ≤ size) docs →
  ∃ docs', Splitter.merge_loop cfg splits docs current_doc total = Ok docs'
           ∧ Forall (λ doc, len doc ≤ size) docs'.
Proof.
  revert docs current_doc total.
  induction splits as [|d rest IH];
    intros docs current_doc total Hsplits Hpos Htotal Hfit Hdocs;
    cbn [Splitter.merge_loop].
  - eexists. split; [done|]. apply push_doc_bounded; [done|].
    by rewrite <-Htotal.
  - apply Forall_cons in Hsplits as [[Hd0 Hd] Hrest]. cbv zeta.
    assert (Hpos' : ∀ cur, Forall (λ d, 0 < len d) cur →
                           Forall (λ d, 0 < len d) (cur ++ [d])).
    { intros cur Hcur. apply Forall_app. split; [done|].
      by apply Forall_singleton. }
    destruct (_ >? _) eqn:Hover;
      [destruct (0 <? length current_doc)%nat eqn:Hne|].
    + destruct (pop_front_ok (len d) current_doc total Htotal)
        as (cur' & total' & -> & Ht & Hstop & Hsub).
      apply IH; [done|by apply Hpos', Hsub|rewrite len_join_snoc; lia| |].
      * intros _. unfold Splitter.keep_popping in Hstop.
        apply orb_false_iff in Hstop as [_ Hstop].
        destruct cur' as [|c cur'].
        { change (len (join sep [])) with 0 in Ht. subst total'.
          unfold Splitter.sep_if. simpl. lia. }
        pose proof (len_join_pos (c :: cur') ltac:(done) (Hsub _ Hpos)).
        apply andb_false_iff in Hstop as [Hstop|Hstop]; [|lia].
        rewrite length_app. simpl in *.
        replace (1 <? S (length cur' + 1))%nat with true
          by (symmetry; apply Nat.ltb_lt; lia).
        unfold Splitter.sep_if. lia.
      * apply push_doc_bounded; [done|]. rewrite <-Htotal. apply Hfit.
    + apply IH; [done|by apply Hpos'|rewrite len_join_snoc; lia| |done].
      intros _. destruct current_doc; [|done].
      change (len (join sep [])) with 0 in Htotal. subst total.
      unfold Splitter.sep_if. simpl. lia.
    + apply IH; [done|by apply Hpos'|rewrite len_join_snoc; lia| |done].
      intros _. rewrite length_app. simpl.
      destruct current_doc as [|c cur]; simpl in *.
      * unfold Splitter.sep_if in *. simpl in *. lia.
      * replace (1 <? S (length cur + 1))%nat with true
          by (symmetry; apply Nat.ltb_lt; lia).
        unfold Splitter.sep_if. lia.
Qed.

Lemma split_text_pieces_nonempty (text : string) :
  Forall (λ d, 0 < len d) (Splitter.split_text_pieces text sep).
Proof.
  unfold Splitter.split_text_pieces. apply Forall_forall.
  intros d [Hd _]%list_elem_of_filter.
  destruct d; [done|]. unfold len. simpl. lia.
Qed.

(** [split_text] never raises. *)
Lemma split_text_total (text : string) :
  ∃ chunks, Splitter.split_text cfg text = Ok chunks.
Proof. by apply merge_loop_total. Qed.

(** [split_text] keeps to [chunk_size] when every piece between separators
    does. *)
Lemma split_text_bounded (text : string) :
  Forall (λ d, len d ≤ size) (Splitter.split_text_pieces text sep) →
  ∃ chunks, Splitter.split_text cfg text = Ok chunks
            ∧ Forall (λ chunk, len chunk ≤ size) chunks.
Proof.
  intros Hfit. apply merge_loop_bounded; try done.
  pose proof (split_text_pieces_nonempty text) as Hpos.
  rewrite Forall_forall in *. intros d Hd.
  split; [by apply Hpos|by apply Hfit].
Qed.

(** *** Whitespace and the shape of the chunks *)

Lemma blank_append (s t : string) : blank (s +:+ t) = blank s && blank t.
Proof.
  induction s as [|c s IH]; [done|]. rewrite append_cons. cbn [blank].
  by rewrite IH, andb_assoc.
Qed.

Lemma lstrip_blank (s : string) : blank s = true → Splitter.lstrip s = "".
Proof.
  induction s as [|c s IH]; [done|]. cbn [blank Splitter.lstrip].
  intros [-> Hs]%andb_true_iff. by apply IH.
Qed.

Lemma strip_blank (s : string) : blank s = true → Splitter.strip s = "".
Proof. intros Hs. unfold Splitter.strip. by rewrite lstrip_blank. Qed.

Lemma blank_join (l : list string) :
  blank sep = true → Forall (λ d, blank d = true) l →
  blank (join sep l) = true.
Proof.
  intros Hsep. induction 1 as [|d rest Hd Hrest IH]; [done|].
  destruct rest as [|d' rest]; [done|].
  rewrite join_cons_cons, !blank_append, Hd, Hsep. exact IH.
Qed.

Lemma rstrip_idem (s : string) :
  Splitter.rstrip (Splitter.rstrip s) = Splitter.rstrip s.
Proof.
  induction s as [|c s IH]; [done|]. cbn [Splitter.rstrip].
  destruct (Splitter.rstrip s) as [|c' r] eqn:Hr.
  - destruct (Splitter.isspace c) eqn:Hc; [done|].
    cbn [Splitter.rstrip]. by rewrite Hc.
  - cbn [Splitter.rstrip] in *. by rewrite IH.
Qed.

Lemma lstrip_rstrip (s : string) :
  Splitter.lstrip (Splitter.rstrip (Splitter.lstrip s))
  = Splitter.rstrip (Splitter.lstrip s).
Proof.
  induction s as [|c s IH]; [done|]. cbn [Splitter.lstrip].
  destruct (Splitter.isspace c) eqn:Hc; [done|].
  cbn [Splitter.rstrip].
  destruct (Splitter.rstrip s); rewrite ?Hc; cbn [Splitter.lstrip];
    by rewrite Hc.
Qed.

Lemma strip_idem (s : string) :
  Splitter.strip (Splitter.strip s) = Splitter.strip s.
Proof.
  unfold Splitter.strip. rewrite lstrip_rstrip. apply rstrip_idem.
Qed.

(** What [push_doc] adds is stripped and not empty. *)
Lemma push_doc_shape (docs current_doc : list string) :
  Forall (λ doc, doc ≠ "" ∧ Splitter.strip doc = doc) docs →
  Forall (λ doc, doc ≠ "" ∧ Splitter.strip doc = doc)
    (Splitter.push_doc cfg docs current_doc).
Proof.
  intros Hdocs. unfold Splitter.push_doc, Splitter.join_docs.
  case_decide as Hs; [done|].
  apply Forall_app. split; [done|]. apply Forall_singleton.
  split; [done|apply strip_idem].
Qed.

Lemma merge_loop_shape (splits docs current_doc : list string) (total : Z)
    (docs' : list string) :
  Splitter.merge_loop cfg splits docs current_doc total = Ok docs' →
  Forall (λ doc, doc ≠ "" ∧ Splitter.strip doc = doc) docs →
  Forall (λ doc, doc ≠ "" ∧ Splitter.strip doc = doc) docs'.
Proof.
  revert docs current_doc total.
  induction splits as [|d rest IH]; intros docs current_doc total;
    cbn [Splitter.merge_loop].
  - intros [= <-]. apply push_doc_shape.
  - cbv zeta.
    destruct (_ >? _); [destruct (0 <? length current_doc)%nat|];
      [|apply IH..].
    destruct (Splitter.pop_front cfg (len d) current_doc total)
      as [[cur' total']|e]; [|done].
    intros Hrun Hdocs. eapply IH; [exact Hrun|by apply push_doc_shape].
Qed.

Lemma pop_front_suffix (_len : Z) (current_doc : list string) (total : Z)
    (current_doc' : list string) (total' : Z) (P : string → Prop) :
  Splitter.pop_front cfg _len current_doc total = Ok (current_doc', total') →
  Forall P current_doc → Forall P current_doc'.
Proof.
  revert total. induction current_doc as [|d0 rest IH]; intros total;
    cbn [Splitter.pop_front].
  - destruct (Splitter.keep_popping cfg _len [] total); [done|].
    by intros [= <- <-].
  - destruct (Splitter.keep_popping cfg _len (d0 :: rest) total).
    + intros Hrun [_ Hrest]%Forall_cons. by eapply IH.
    + by intros [= <- <-].
Qed.

(** Pieces of whitespace never make a chunk. *)
Lemma merge_loop_blank (splits docs current_doc : list string) (total : Z)
    (docs' : list string) :
  blank sep = true →
  Forall (λ d, blank d = true) splits →
  Forall (λ d, blank d = true) current_doc →
  Splitter.merge_loop cfg splits docs current_doc total = Ok docs' →
  docs' = docs.
Proof.
  intros Hsep Hsplits. revert docs current_doc total.
  assert (Hpush : ∀ docs cur, Forall (λ d, blank d = true) cur →
                              Splitter.push_doc cfg docs cur = docs).
  { intros docs cur Hcur. unfold Splitter.push_doc, Splitter.join_docs.
    by rewrite strip_blank, decide_True by (done || by apply blank_join). }
  induction Hsplits as [|d rest Hd Hrest IH]; intros docs current_doc total
    Hcur; cbn [Splitter.merge_loop].
  - intros [= <-]. by apply Hpush.
  - assert (Hsnoc : ∀ cur, Forall (λ d, blank d = true) cur →
                           Forall (λ d, blank d = true) (cur ++ [d])).
    { intros cur Hc. apply Forall_app. split; [done|].
      by apply Forall_singleton. }
    cbv zeta.
    destruct (_ >? _); [destruct (0 <? length current_doc)%nat|];
      [|by apply IH, Hsnoc..].
    destruct (Splitter.pop_front cfg (len d) current_doc total)
      as [[cur' total']|e] eqn:Hpop; [|done].
    rewrite (Hpush docs current_doc Hcur).
    apply IH, Hsnoc. by eapply pop_front_suffix.
Qed.

Lemma split_go_blank (skip : nat) (cur s : string) :
  blank cur = true → blank s = true →
  Forall (λ d, blank d = true) (Splitter.split_go sep skip cur s).
Proof.
  revert skip cur. induction s as [|c s IH]; intros skip cur Hcur Hs;
    cbn [Splitter.split_go].
  - by apply Forall_singleton.
  - cbn [blank] in Hs. apply andb_true_iff in Hs as [Hc Hs].
    destruct skip as [|k]; [|by apply IH].
    destruct (String.prefix sep (String c s)).
    + apply Forall_cons. split; [done|]. by apply IH.
    + apply IH; [|done]. rewrite blank_append, Hcur. cbn [blank].
      by rewrite Hc.
Qed.

Lemma chars_blank (s : string) :
  blank s = true → Forall (λ d, blank d = true) (Splitter.chars s).
Proof.
  induction s as [|c s IH]; [constructor|]. cbn [blank Splitter.chars].
  intros [Hc Hs]%andb_true_iff. apply Forall_cons. split; [|by apply IH].
  cbn [blank]. by rewrite Hc.
Qed.

Lemma split_text_blank (text : string) :
  blank sep = true → blank text = true →
  Splitter.split_text cfg text = Ok [].
Proof.
  intros Hsep Htext.
  destruct (split_text_total text) as [chunks Hrun]. rewrite Hrun.
  f_equal. unfold Splitter.split_text, Splitter.merge_splits in Hrun.
  eapply merge_loop_blank; [done| |constructor|exact Hrun].
  unfold Splitter.split_text_pieces. apply Forall_forall.
  intros d [_ Hd]%list_elem_of_filter. revert d Hd. apply Forall_forall.
  pose proof (split_go_blank 0 "" text eq_refl Htext) as Hgo.
  pose proof (chars_blank text Htext) as Hchars.
  by destruct sep.
Qed.

(** A text in which the one-character separator does not occur is a
    single piece. *)
Lemma split_go_no_separator (c0 : ascii) (cur s : string) :
  has_char c0 s = false →
  Splitter.split_go (String c0 "") 0 cur s = [cur +:+ s].
Proof.
  revert cur. induction s as [|c s IH]; intros cur; cbn [Splitter.split_go].
  - by rewrite append_nil_r.
  - cbn [has_char String.prefix].
    destruct (ascii_dec c0 c); [done|]. intros Hs.
    rewrite IH by done. by rewrite append_assoc.
Qed.

Lemma split_text_no_separator (c0 : ascii) (text : string) :
  sep = String c0 "" →
  has_char c0 text = false →
  Splitter.split_text cfg text
  = Ok (match Splitter.strip text with
        | "" => []
        | chunk => [chunk]
        end).
Proof.
  intros Hsep Htext.
  unfold Splitter.split_text, Splitter.split_text_pieces.
  rewrite Hsep, split_go_no_separator, append_nil_l by done.
  rewrite filter_cons, filter_nil.
  destruct text as [|c text]; [done|]. rewrite decide_True by done.
  unfold Splitter.merge_splits. cbn [Splitter.merge_loop]. cbv zeta.
  assert (Hpush : Splitter.push_doc cfg [] ([] ++ [String c text])
                  = match Splitter.strip (String c text) with
                    | "" => []
                    | chunk => [chunk]
                    end).
  { unfold Splitter.push_doc, Splitter.join_docs.
    change (join sep ([] ++ [String c text])) with (String c text).
    by destruct (Splitter.strip (String c text)). }
  change (0 <? length [])%nat with false. cbv iota.
  rewrite Hpush. by destruct (_ >? _).
Qed.

End SplitterFacts.

(** [get_text_chunks] returns for every text, and its chunks have at most
    1000 characters when every line of the text has. *)
Lemma get_text_chunks_total (raw_text : string) :
  ∃ text_chunks, get_text_chunks raw_text = Ok text_chunks.
Proof. by apply split_text_total. Qed.

(** X10.  When no line of the text has more than 1000 characters,
    [get_text_chunks] returns chunks of at most 1000 characters each. *)
Lemma get_text_chunks_bounded_by_lines (raw_text : string) :
  Forall (λ line, len line ≤ 1000)
    (Splitter.split_text_pieces raw_text newline) →
  ∃ text_chunks, get_text_chunks raw_text = Ok text_chunks
                 ∧ Forall (λ chunk, len chunk ≤ 1000) text_chunks.
Proof. intros H. by apply (split_text_bounded text_splitter). Qed.

(** X9.  [get_text_chunks] returns for every text: the inner loop of the
    splitter never runs off the front of its window.  No chunk is empty and
    no chunk begins or ends with whitespace. *)
Theorem get_text_chunks_shape (raw_text : string) :
  ∃ text_chunks,
    get_text_chunks raw_text = Ok text_chunks
    ∧ Forall (λ chunk, chunk ≠ "" ∧ Splitter.strip chunk = chunk)
        text_chunks.
Proof.
  destruct (split_text_total text_splitter ltac:(done) raw_text)
    as [chunks Hrun].
  exists chunks. split; [exact Hrun|].
  eapply merge_loop_shape; [exact Hrun|constructor].
Qed.

(** X11.  A text without a newline is never cut, however long it is: it
    comes back as one chunk, stripped of the whitespace around it, or as no
    chunk when it is nothing but whitespace. *)
Theorem get_text_chunks_without_newline (raw_text : string) :
  has_char "010" raw_text = false →
  get_text_chunks raw_text
  = Ok (match Splitter.strip raw_text with
        | "" => []
        | chunk => [chunk]
        end).
Proof. intros H. by apply (split_text_no_separator text_splitter "010"). Qed.

(** X12.  A text of nothing but whitespace and newlines gives no chunk. *)
Theorem get_text_chunks_blank (raw_text : string) :
  blank raw_text = true → get_text_chunks raw_text = Ok [].
Proof. intros H. by apply (split_text_blank text_splitter). Qed.

(** ** Processing, with the chunker known to return *)

Section Processing.
Context {Datasheet Page Vector : Type}.
Variable PdfReader : Datasheet -> result (list Page).
Variable extract_text : Page -> result string.
Variable embed_documents : list call -> list string -> result (list Vector).

#[local] Abbreviation process_datasheets' :=
  (process_datasheets PdfReader extract_text embed_documents).

(** X13.  [Process] is all or nothing.  When it raises, no object has
    been created and the session state is as before; and it raises for one
    of three reasons only: a datasheet or page could not be read (nothing
    was sent to the embedding backend), the embedding backend failed, or it
    returned no vector at all ([IndexError]). *)
Theorem process_is_all_or_nothing ds (w : world Vector) e w' :
  process_datasheets' ds w = (Raise e, w') →
  heap w' = heap w
  ∧ session_state w' = session_state w
  ∧ (get_datasheets_text PdfReader extract_text ds = Raise e
     ∧ calls w' = calls w
     ∨ ∃ raw_text text_chunks,
         get_datasheets_text PdfReader extract_text ds = Ok raw_text
         ∧ get_text_chunks raw_text = Ok text_chunks
         ∧ calls w' = calls w ++ [EmbedDocuments text_chunks]
         ∧ (embed_documents (calls w) text_chunks = Raise e
            ∨ embed_documents (calls w) text_chunks = Ok []
              ∧ e = IndexError)).
Proof.
  intros Hrun.
  destruct (process_datasheets_raise _ _ _ _ _ _ _ Hrun) as [Hh Hs].
  split; [done|]. split; [done|].
  apply process_datasheets_raise_cases in Hrun
    as [[Hr ->]|[(raw & Hr & Hc & ->)|(raw & chunks & Hr & Hc & -> & He)]].
  - by left.
  - destruct (get_text_chunks_total raw) as [chunks Hchunks]. congruence.
  - right. by exists raw, chunks.
Qed.

(** X14.  Datasheets whose pages yield nothing but whitespace (scans
    without a text layer) cannot be processed: with an embedding backend
    that returns one vector per text, [Process] raises after asking for the
    embedding of no text, and nothing else changes. *)
Theorem blank_documents_are_not_processed ds raw_text (w : world Vector) :
  (∀ log texts vectors,
     embed_documents log texts = Ok vectors →
     length vectors = length texts) →
  get_datasheets_text PdfReader extract_text ds = Ok raw_text →
  blank raw_text = true →
  ∃ e, (process_datasheets' ds w).1 = Raise e
       ∧ heap (process_datasheets' ds w).2 = heap w
       ∧ session_state (process_datasheets' ds w).2 = session_state w
       ∧ calls (process_datasheets' ds w).2
         = calls w ++ [EmbedDocuments []].
Proof.
  intros Hlen Hraw Hblank.
  pose proof (split_text_blank text_splitter ltac:(done) raw_text eq_refl
                Hblank) as Hchunks.
  change (Splitter.split_text text_splitter raw_text)
    with (get_text_chunks raw_text) in Hchunks.
  destruct (process_datasheets' ds w) as [[u|e] w'] eqn:Hrun.
  - apply process_datasheets_ok in Hrun
      as (raw & chunks & embeddings & Hr & Hc & He & Hne & _).
    assert (raw = raw_text) as -> by congruence.
    assert (chunks = []) as -> by congruence.
    apply Hlen in He. by destruct embeddings.
  - exists e. split; [done|].
    destruct (process_datasheets_raise _ _ _ _ _ _ _ Hrun) as [Hh Hs].
    split; [done|]. split; [done|].
    apply process_datasheets_raise_cases in Hrun
      as [[Hr _]|[(raw & Hr & Hc & _)|(raw & chunks & Hr & Hc & -> & _)]];
      [congruence..|].
    assert (raw = raw_text) as -> by congruence.
    by assert (chunks = []) as -> by congruence.
Qed.

End Processing.

(** ** The chunker on the inputs of the specification *)

(** C2.  On 1200 identical characters without a newline the splitter finds
    a single piece, and [get_text_chunks] returns it whole: one chunk of
    1200 characters, not two. *)
Theorem get_text_chunks_1200_identical :
  get_text_chunks (str_repeat "A" 1200) = Ok [str_repeat "A" 1200].
Proof. vm_compute. reflexivity. Qed.

(** C3.  A line longer than [chunk_size] becomes a chunk longer than
    [chunk_size], and two lines of 600 characters become two chunks that
    share nothing. *)
Theorem get_text_chunks_exceeds_chunk_size :
  get_text_chunks (str_repeat "A" 1001) = Ok [str_repeat "A" 1001]
  ∧ Splitter.chunk_size text_splitter < len (str_repeat "A" 1001)
  ∧ get_text_chunks (str_repeat "a" 600 +:+ newline +:+ str_repeat "b" 600)
    = Ok [str_repeat "a" 600; str_repeat "b" 600].
Proof. vm_compute. done. Qed.

(** C10 on the state of a first visit: nothing is asked, nothing changes. *)
Lemma empty_question_is_ignored_witness :
  demo_main {| user_question := ""; datasheets := []; process := false |}
    Demo.fresh
  = (Ok [], Demo.fresh).
Proof.
  destruct (empty_question_is_ignored Demo.PdfReader Demo.extract_text
              Demo.embed_documents Demo.embed_query Demo.index_search
              Demo.llm Demo.CONDENSE_QUESTION_PROMPT Demo.QA_PROMPT
              {| user_question := ""; datasheets := []; process := false |}
              Demo.fresh eq_refl)
    as (_ & _ & _ & _ & H).
  apply H; [reflexivity|].
  split; exists PyNone; reflexivity.
Defined.

(** C5: a question before any processing is rejected; processing a
    datasheet on a first visit brings a session into place; and a session
    that is in place survives a run that asks and processes. *)
Lemma uninitialised_rejects_ready_stays_witness :
  demo_ask "What is the NE555?" Demo.fresh = (Raise TypeError, Demo.fresh)
  ∧ (demo_main {| user_question := ""; datasheets := [["NE555 timer"]];
                  process := true |} Demo.fresh).1 = Ok []
  ∧ session_ready
      (demo_main {| user_question := ""; datasheets := [["NE555 timer"]];
                    process := true |} Demo.fresh).2
  ∧ session_ready
      (demo_main {| user_question := "LM317?";
                    datasheets := [["NE555 timer"]];
                    process := true |} (Demo.session [])).2.
Proof.
  destruct (uninitialised_rejects_ready_stays Demo.PdfReader
              Demo.extract_text Demo.embed_documents Demo.embed_query
              Demo.index_search Demo.llm Demo.CONDENSE_QUESTION_PROMPT
              Demo.QA_PROMPT
              {| user_question := ""; datasheets := [["NE555 timer"]];
                 process := true |}
              Demo.fresh "What is the NE555?")
    as (H1 & H2 & _).
  destruct (uninitialised_rejects_ready_stays Demo.PdfReader
              Demo.extract_text Demo.embed_documents Demo.embed_query
              Demo.index_search Demo.llm Demo.CONDENSE_QUESTION_PROMPT
              Demo.QA_PROMPT
              {| user_question := "LM317?"; datasheets := [["NE555 timer"]];
                 process := true |}
              (Demo.session []) "LM317?")
    as (_ & _ & _ & H4 & _).
  destruct (H2 eq_refl eq_refl "NE555 timer" ["NE555 timer"] "NE555 timer" []
              eq_refl eq_refl eq_refl) as [Hok Hready].
  split; [apply H1; reflexivity|]. split; [exact Hok|].
  split; [exact Hready|apply H4, demo_session_ready].
Defined.

(** C8 with a model that is down: the question fails and the session is as
    before. *)
Lemma failed_ask_keeps_history_witness :
  heap (demo_ask_down "LM317?" (Demo.session Demo.history)).2
  = heap (Demo.session Demo.history)
  ∧ session_state (demo_ask_down "LM317?" (Demo.session Demo.history)).2
    = session_state (Demo.session Demo.history).
Proof.
  destruct (failed_ask_keeps_history Demo.PdfReader Demo.extract_text
              Demo.embed_documents Demo.embed_query Demo.index_search
              Demo.llm_down Demo.CONDENSE_QUESTION_PROMPT Demo.QA_PROMPT
              {| user_question := "LM317?"; datasheets := [];
                 process := false |}
              "LM317?" (Demo.session Demo.history)
              (BackendError "timeout")
              (demo_ask_down "LM317?" (Demo.session Demo.history)).2)
    as (Hh & Hs & _).
  - vm_compute. reflexivity.
  - split; [exact Hh|exact Hs].
Defined.

(** C9: processing a new datasheet leaves the old chain and its store as
    they were and puts a new chain, over a new store and an empty message
    list, behind them and into [conversation]. *)
Lemma session_is_replaced_not_mutated_witness :
  heap (demo_main {| user_question := ""; datasheets := [["NE555 timer"]];
                     process := true |} (Demo.session Demo.history)).2
  !! 2%nat = Some (Chain 0%nat 1%nat)
  ∧ heap (demo_main {| user_question := ""; datasheets := [["NE555 timer"]];
                       process := true |} (Demo.session Demo.history)).2
    !! 0%nat = Some (FAISS Demo.texts Demo.texts)
  ∧ demo_main {| user_question := ""; datasheets := [["NE555 timer"]];
                 process := true |} (Demo.session Demo.history)
    = (Ok [],
       {| heap := [FAISS Demo.texts Demo.texts; Messages Demo.history;
                   Chain 0%nat 1%nat;
                   FAISS ["NE555 timer"] ["NE555 timer"]; Messages [];
                   Chain 3%nat 4%nat];
          session_state :=
            <["conversation" := Ref 5%nat]>
              (session_state (Demo.session Demo.history));
          calls := [EmbedDocuments ["NE555 timer"]] |}).
Proof.
  destruct (session_is_replaced_not_mutated Demo.PdfReader
              Demo.extract_text Demo.embed_documents Demo.embed_query
              Demo.index_search Demo.llm Demo.CONDENSE_QUESTION_PROMPT
              Demo.QA_PROMPT
              {| user_question := ""; datasheets := [["NE555 timer"]];
                 process := true |}
              (Demo.session Demo.history) 2%nat 0%nat 1%nat Demo.texts
              Demo.texts eq_refl eq_refl)
    as (Hl & Hvs & Hnew & _).
  split; [exact Hl|]. split; [exact Hvs|].
  apply (Hnew eq_refl eq_refl) with (raw_text := "NE555 timer");
    [|reflexivity..].
  split; [exists (Ref 2%nat)|exists PyNone]; reflexivity.
Defined.

(** C4: [Process] without datasheets raises and the session stays. *)
Lemma zero_documents_create_no_session_witness :
  (∃ e, (demo_main {| user_question := ""; datasheets := [];
                      process := true |} (Demo.session Demo.history)).1
        = Raise e)
  ∧ session_state
      (demo_main {| user_question := ""; datasheets := [];
                    process := true |} (Demo.session Demo.history)).2
    !! "conversation" = Some (Ref 2%nat).
Proof.
  destruct (zero_documents_create_no_session Demo.PdfReader
              Demo.extract_text Demo.embed_documents Demo.embed_query
              Demo.index_search Demo.llm Demo.CONDENSE_QUESTION_PROMPT
              Demo.QA_PROMPT
              {| user_question := ""; datasheets := []; process := true |}
              (Demo.session Demo.history)
              demo_embed_documents_length eq_refl eq_refl)
    as (_ & _ & _ & He & Hc & _).
  split; [exact He|apply Hc; reflexivity].
Defined.

(** C7: two questions to a new session. *)
Lemma two_asks_append_two_turns_witness :
  ∃ memory history a1 a2 prompt rest,
    heap (Demo.session []) !! memory = Some (Messages history)
    ∧ heap (demo_ask "NE555?" (Demo.session [])).2 !! memory
      = Some (Messages (history ++ [HumanMessage "NE555?"; AIMessage a1]))
    ∧ heap (demo_ask "LM317?" (demo_ask "NE555?" (Demo.session [])).2).2
      !! memory
      = Some (Messages (history ++ [HumanMessage "NE555?"; AIMessage a1;
                                    HumanMessage "LM317?"; AIMessage a2]))
    ∧ new_calls (demo_ask "NE555?" (Demo.session [])).2
        (demo_ask "LM317?" (demo_ask "NE555?" (Demo.session [])).2).2
      = Generate prompt :: rest
    ∧ occurs_in ("Human: " +:+ "NE555?") prompt
    ∧ occurs_in ("Assistant: " +:+ a1) prompt.
Proof.
  destruct (two_asks_append_two_turns Demo.embed_query Demo.index_search
              Demo.llm Demo.CONDENSE_QUESTION_PROMPT Demo.QA_PROMPT
              "NE555?" "LM317?" (Demo.session [])
              match (demo_ask "NE555?" (Demo.session [])).1 with
              | Ok shown => shown
              | Raise _ => []
              end
              (demo_ask "NE555?" (Demo.session [])).2
              match (demo_ask "LM317?"
                       (demo_ask "NE555?" (Demo.session [])).2).1 with
              | Ok shown => shown
              | Raise _ => []
              end
              (demo_ask "LM317?" (demo_ask "NE555?" (Demo.session [])).2).2)
    as (memory & history & a1 & a2 & prompt & rest & H0 & H1 & H2 & _ & _
        & Hn & _ & Hq & Ha).
  - vm_compute. reflexivity.
  - vm_compute. reflexivity.
  - exists memory, history, a1, a2, prompt, rest.
    repeat split; assumption.
Defined.

(** C1, as the code has it, over a history: the retrieval query is what
    the model made of the condense prompt. *)
Lemma retrieval_query_of_ask_witness :
  retrieval_queries
    (new_calls (Demo.session Demo.history)
       (demo_ask "And its supply voltage?" (Demo.session Demo.history)).2)
  = [format Demo.CONDENSE_QUESTION_PROMPT (get_chat_history Demo.history)
       "And its supply voltage?"].
Proof.
  exact (retrieval_query_of_ask Demo.embed_query Demo.index_search Demo.llm
           Demo.CONDENSE_QUESTION_PROMPT Demo.QA_PROMPT
           "And its supply voltage?" (Demo.session Demo.history)
           2%nat 0%nat 1%nat Demo.texts Demo.texts Demo.history
           eq_refl eq_refl eq_refl eq_refl).
Defined.

(** C1 as the specification states it fails: the same question, asked of
    two sessions that differ only in their history, is retrieved for with
    different queries and brings back different chunks. *)
Lemma retrieval_depends_on_history :
  (demo_retrieve 0%nat [] "And its supply voltage?" (Demo.session [])).1
  = Ok ("And its supply voltage?", [])
  ∧ (demo_retrieve 0%nat Demo.history "And its supply voltage?"
       (Demo.session Demo.history)).1
    = Ok (format Demo.CONDENSE_QUESTION_PROMPT
            (get_chat_history Demo.history) "And its supply voltage?",
          ["NE555"])
  ∧ retrieval_queries
      (calls (demo_ask "And its supply voltage?" (Demo.session [])).2)
    ≠ retrieval_queries
        (calls (demo_ask "And its supply voltage?"
                  (Demo.session Demo.history)).2).
Proof.
  split; [vm_compute; reflexivity|]. split; [vm_compute; reflexivity|].
  vm_compute. discriminate.
Qed.

(** ** The further properties on the concrete backends *)

#[local] Abbreviation demo_runs :=
  (runs Demo.PdfReader Demo.extract_text Demo.embed_documents
     Demo.embed_query Demo.index_search Demo.llm
     Demo.CONDENSE_QUESTION_PROMPT Demo.QA_PROMPT).
#[local] Abbreviation demo_process :=
  (process_datasheets Demo.PdfReader Demo.extract_text
     Demo.embed_documents).
#[local] Abbreviation shown_of r :=
  (match r with Ok shown => shown | Raise _ => [] end).

Lemma demo_whole_turns : whole_turns (heap (Demo.session Demo.history)).
Proof.
  intros [|[|[|l]]] messages H; simplify_eq/=.
  by exists [("What is the NE555?", "A timer.")].
Defined.

(** X2 after one more question: the two earlier messages are still the
    first two. *)
Lemma objects_over_runs_witness :
  ∃ new,
    heap (demo_runs [{| user_question := "LM317?"; datasheets := [];
                        process := false |}]
            (Demo.session Demo.history)) !! 1%nat
    = Some (Messages (Demo.history ++ new)).
Proof.
  exact (objects_over_runs Demo.PdfReader Demo.extract_text
           Demo.embed_documents Demo.embed_query Demo.index_search Demo.llm
           Demo.CONDENSE_QUESTION_PROMPT Demo.QA_PROMPT
           [{| user_question := "LM317?"; datasheets := [];
               process := false |}]
           (Demo.session Demo.history) 1%nat (Messages Demo.history)
           eq_refl).
Defined.

(** X3 on a first visit that asks, then processes, then asks again. *)
Lemma uninitialised_or_ready_over_runs_witness :
  session_uninitialised
    (demo_runs [{| user_question := "NE555?"; datasheets := [];
                   process := false |};
                {| user_question := ""; datasheets := [["NE555 timer"]];
                   process := true |};
                {| user_question := "NE555?"; datasheets := [];
                   process := false |}] Demo.fresh)
  ∨ session_ready
      (demo_runs [{| user_question := "NE555?"; datasheets := [];
                     process := false |};
                  {| user_question := ""; datasheets := [["NE555 timer"]];
                     process := true |};
                  {| user_question := "NE555?"; datasheets := [];
                     process := false |}] Demo.fresh).
Proof.
  apply (uninitialised_or_ready_over_runs Demo.PdfReader Demo.extract_text
           Demo.embed_documents Demo.embed_query Demo.index_search Demo.llm
           Demo.CONDENSE_QUESTION_PROMPT Demo.QA_PROMPT
           [{| user_question := "NE555?"; datasheets := [];
               process := false |};
            {| user_question := ""; datasheets := [["NE555 timer"]];
               process := true |};
            {| user_question := "NE555?"; datasheets := [];
               process := false |}] Demo.fresh).
  - discriminate.
  - right. reflexivity.
Defined.

(** X4 on a world without any session key, with a question that fails. *)
Lemma main_creates_session_keys_witness :
  initialised
    (demo_main {| user_question := "NE555?"; datasheets := [];
                  process := false |}
       {| heap := []; session_state := ∅; calls := [] |}).2.
Proof.
  apply (main_creates_session_keys Demo.PdfReader Demo.extract_text
           Demo.embed_documents Demo.embed_query Demo.index_search Demo.llm
           Demo.CONDENSE_QUESTION_PROMPT Demo.QA_PROMPT
           {| user_question := "NE555?"; datasheets := [];
              process := false |}
           {| heap := []; session_state := ∅; calls := [] |}).
Defined.

(** X5 on a question over a history. *)
Lemma successful_question_witness :
  ∃ new_question log v answer,
    Demo.embed_query log new_question = Ok v
    ∧ heap (demo_ask "And its supply voltage?"
              (Demo.session Demo.history)).2 !! 1%nat
      = Some (Messages (Demo.history
                        ++ [HumanMessage "And its supply voltage?";
                            AIMessage answer])).
Proof.
  destruct (successful_question Demo.embed_query Demo.index_search Demo.llm
              Demo.CONDENSE_QUESTION_PROMPT Demo.QA_PROMPT
              "And its supply voltage?" (Demo.session Demo.history)
              2%nat 0%nat 1%nat Demo.texts Demo.texts Demo.history
              (shown_of (demo_ask "And its supply voltage?"
                           (Demo.session Demo.history)).1)
              (demo_ask "And its supply voltage?"
                 (Demo.session Demo.history)).2
              eq_refl eq_refl eq_refl eq_refl)
    as (nq & log & v & a & _ & Hv & _ & _ & Hm).
  - vm_compute. reflexivity.
  - by exists nq, log, v, a.
Defined.

(** X6: a datasheet is processed in a session with a history, then a
    question is asked. *)
Lemma first_question_after_processing_witness :
  ∃ answer,
    shown_of (demo_ask "NE555?"
                (demo_process [["NE555 timer"]]
                   (Demo.session Demo.history)).2).1
    = [UserBubble "NE555?"; BotBubble answer]
    ∧ retrieval_queries
        (new_calls
           (demo_process [["NE555 timer"]] (Demo.session Demo.history)).2
           (demo_ask "NE555?"
              (demo_process [["NE555 timer"]]
                 (Demo.session Demo.history)).2).2)
      = ["NE555?"].
Proof.
  destruct (first_question_after_processing Demo.PdfReader
              Demo.extract_text Demo.embed_documents Demo.embed_query
              Demo.index_search Demo.llm Demo.CONDENSE_QUESTION_PROMPT
              Demo.QA_PROMPT [["NE555 timer"]] (Demo.session Demo.history)
              ()
              (demo_process [["NE555 timer"]]
                 (Demo.session Demo.history)).2
              "NE555?"
              (shown_of (demo_ask "NE555?"
                           (demo_process [["NE555 timer"]]
                              (Demo.session Demo.history)).2).1)
              (demo_ask "NE555?"
                 (demo_process [["NE555 timer"]]
                    (Demo.session Demo.history)).2).2)
    as (a & Hshown & Hq & _).
  - vm_compute. reflexivity.
  - vm_compute. reflexivity.
  - by exists a.
Defined.

(** X7 after a question and a new datasheet. *)
Lemma whole_turns_over_runs_witness :
  whole_turns
    (heap (demo_runs [{| user_question := "LM317?";
                         datasheets := [["NE555 timer"]];
                         process := true |}]
             (Demo.session Demo.history))).
Proof.
  exact (whole_turns_over_runs Demo.PdfReader Demo.extract_text
           Demo.embed_documents Demo.embed_query Demo.index_search Demo.llm
           Demo.CONDENSE_QUESTION_PROMPT Demo.QA_PROMPT
           [{| user_question := "LM317?"; datasheets := [["NE555 timer"]];
               process := true |}]
           (Demo.session Demo.history) demo_whole_turns).
Defined.

(** X8 on a question over a history of one turn. *)
Lemma shown_conversation_witness :
  ∃ answer,
    shown_of (demo_ask "LM317?" (Demo.session Demo.history)).1
    = [UserBubble "What is the NE555?"; BotBubble "A timer.";
       UserBubble "LM317?"; BotBubble answer].
Proof.
  destruct (shown_conversation Demo.embed_query Demo.index_search Demo.llm
              Demo.CONDENSE_QUESTION_PROMPT Demo.QA_PROMPT "LM317?"
              (Demo.session Demo.history)
              (shown_of (demo_ask "LM317?" (Demo.session Demo.history)).1)
              (demo_ask "LM317?" (Demo.session Demo.history)).2
              demo_whole_turns)
    as (l & vs & memory & turns & answer & Hc & Hl & Hm & _ & Hshown).
  - vm_compute. reflexivity.
  - exists answer. rewrite Hshown.
    assert (l = 2%nat) as ->.
    { vm_compute in Hc. by injection Hc. }
    assert (memory = 1%nat) as -> by (by injection Hl).
    injection Hm as Hm. unfold Demo.history in Hm.
    destruct turns as [|[q a] [|[q' a'] rest]]; [done| |done].
    by injection Hm as <- <-.
Defined.

(** X10 on two short lines. *)
Lemma get_text_chunks_bounded_by_lines_witness :
  ∃ text_chunks,
    get_text_chunks ("LM317" +:+ newline +:+ "NE555") = Ok text_chunks
    ∧ Forall (λ chunk, len chunk ≤ 1000) text_chunks.
Proof.
  apply (get_text_chunks_bounded_by_lines
           ("LM317" +:+ newline +:+ "NE555")).
  repeat constructor; discriminate.
Defined.

(** X11 on a line with blanks around it. *)
Lemma get_text_chunks_without_newline_witness :
  get_text_chunks "  LM317 regulator " = Ok ["LM317 regulator"].
Proof.
  exact (get_text_chunks_without_newline "  LM317 regulator " eq_refl).
Defined.

(** X12 on blanks and newlines. *)
Lemma get_text_chunks_blank_witness :
  get_text_chunks ("  " +:+ newline +:+ newline +:+ " ") = Ok [].
Proof.
  exact (get_text_chunks_blank ("  " +:+ newline +:+ newline +:+ " ")
           eq_refl).
Defined.

(** X13 on [Process] without datasheets. *)
Lemma process_is_all_or_nothing_witness :
  heap (demo_process [] (Demo.session Demo.history)).2
  = heap (Demo.session Demo.history)
  ∧ session_state (demo_process [] (Demo.session Demo.history)).2
    = session_state (Demo.session Demo.history).
Proof.
  destruct (process_is_all_or_nothing Demo.PdfReader Demo.extract_text
              Demo.embed_documents [] (Demo.session Demo.history)
              IndexError
              (demo_process [] (Demo.session Demo.history)).2)
    as (Hh & Hs & _).
  - vm_compute. reflexivity.
  - by split.
Defined.

(** X14 on two scans without text. *)
Lemma blank_documents_are_not_processed_witness :
  ∃ e, (demo_process [["  "; ""]; [" "]] (Demo.session Demo.history)).1
       = Raise e
       ∧ heap (demo_process [["  "; ""]; [" "]]
                 (Demo.session Demo.history)).2
         = heap (Demo.session Demo.history)
       ∧ session_state (demo_process [["  "; ""]; [" "]]
                          (Demo.session Demo.history)).2
         = session_state (Demo.session Demo.history)
       ∧ calls (demo_process [["  "; ""]; [" "]]
                  (Demo.session Demo.history)).2
         = calls (Demo.session Demo.history) ++ [EmbedDocuments []].
Proof.
  exact (blank_documents_are_not_processed Demo.PdfReader Demo.extract_text
           Demo.embed_documents [["  "; ""]; [" "]] "   "
           (Demo.session Demo.history) demo_embed_documents_length
           eq_refl eq_refl).
Defined.
